(** * whale-watcher: the swap-log decoder and the ETL pipeline

    A shallow embedding of [src/etl_pipeline.py]:
    - [decode_swap_log] with the two library calls it is made of,
      [bytes.fromhex] and [int.from_bytes(..., byteorder='big', signed=True)];
    - [get_crypto_data]: configuration, fetch, decoding of every row, the
      bot detection over the frame sorted by sender and timestamp, the
      top-20 feed and the narrative loop over its first ten rows.

    Python's [str] is modelled by [string], one [ascii] per code point
    (the code points below 256); Python's unbounded [int] by [Z]; a
    [bytes] object by a list of byte values, each a [Z] in [0, 256). *)

From Stdlib Require Import ZArith Lia Ascii String List DecimalString.
From stdpp Require Import base decidable option list sorting strings gmap.

Local Open Scope Z_scope.

(** ** Exceptions and results *)

(** The exceptions that can leave the functions modelled here. *)
Inductive exn : Type :=
  | ValueError            (* bytes.fromhex, column assignment *)
  | CredentialsNotSet     (* raise Exception("GOOGLE_APPLICATION_CREDENTIALS ...") *)
  | GeminiConfigFailure   (* the re-raised failure of the secrets fallback *)
  | ClientError.          (* bigquery.Client(project=project_id) raises *)

Inductive result (A : Type) : Type :=
  | Ok (a : A)
  | Raise (e : exn).
Arguments Ok {A} a.
Arguments Raise {A} e.

Global Instance result_ret : MRet result := @Ok.
Global Instance result_bind : MBind result := λ A B f m,
  match m with
  | Ok a => f a
  | Raise e => Raise e
  end.

Definition raises {A} (m : result A) : Prop := ∃ e, m = Raise e.

(** ** Python string slicing *)

(** [s[a:b]] for [0 <= a <= b]: out-of-range bounds are clipped. *)
Definition slice (a b : nat) (s : string) : string :=
  String.substring a (b - a) s.

(** [s[a:]]. *)
Definition slice_from (a : nat) (s : string) : string :=
  String.substring a (String.length s - a) s.

(** [s.startswith(p)]. *)
Definition startswith (s p : string) : bool := String.prefix p s.

(** ** [bytes.fromhex] *)

(** [Py_ISSPACE]: the six ASCII whitespace characters. *)
Definition Py_ISSPACE (c : ascii) : bool :=
  let n := Z.of_N (N_of_ascii c) in
  ((9 <=? n) && (n <=? 13)) || (n =? 32).

(** [_PyLong_DigitValue[c] < 16]: the value of a hexadecimal digit. *)
Definition hex_digit_value (c : ascii) : option Z :=
  let n := Z.of_N (N_of_ascii c) in
  if (48 <=? n) && (n <=? 57) then Some (n - 48)
  else if (97 <=? n) && (n <=? 102) then Some (n - 87)
  else if (65 <=? n) && (n <=? 70) then Some (n - 55)
  else None.

(** The loop of [_PyBytes_FromHex]: whitespace is skipped in front of a
    byte, then two hexadecimal digits are read; anything else, the end of
    the string after the first digit included, is a [ValueError]. *)
Fixpoint bytes_fromhex (s : string) : result (list Z) :=
  match s with
  | EmptyString => Ok []
  | String c s' =>
      if Py_ISSPACE c then bytes_fromhex s'
      else
        match hex_digit_value c with
        | None => Raise ValueError
        | Some top =>
            match s' with
            | EmptyString => Raise ValueError
            | String d s'' =>
                match hex_digit_value d with
                | None => Raise ValueError
                | Some bot =>
                    bs ← bytes_fromhex s'';
                    Ok ((top ≪ 4) + bot :: bs)
                end
            end
        end
  end.

(** ** [int.from_bytes(bs, byteorder='big', signed=True)] *)

Definition unsigned_big (bs : list Z) : Z :=
  fold_left (λ acc b, acc * 256 + b) bs 0.

(** The sign is the top bit of the most significant byte; the empty
    byte string is 0. *)
Definition int_from_bytes_big_signed (bs : list Z) : Z :=
  match bs with
  | [] => 0
  | b :: _ =>
      if Z.testbit b 7
      then unsigned_big bs - 2 ^ (8 * Z.of_nat (length bs))
      else unsigned_big bs
  end.

(** ** [decode_swap_log] *)

Definition strip_marker (log_data : string) : string :=
  if startswith log_data "0x" then slice_from 2 log_data else log_data.

Definition decode_swap_log (log_data : string) : result (Z * Z) :=
  let log_data := strip_marker log_data in
  let amount0_hex := slice 0 64 log_data in
  let amount1_hex := slice 64 128 log_data in
  b0 ← bytes_fromhex amount0_hex;
  let amount0 := int_from_bytes_big_signed b0 in
  b1 ← bytes_fromhex amount1_hex;
  let amount1 := int_from_bytes_big_signed b1 in
  Ok (amount0, amount1).

(** ** The frame and its columns *)

(** A row as the query returns it. [block_timestamp] is the instant in
    nanoseconds, the unit of pandas' [Timestamp] and [Timedelta]. *)
Record RawRow : Type := {
  sender : string;
  pool_address : string;
  data : string;
  value : string;
  block_timestamp : Z
}.

(** The row once [amount0] and [amount1] are assigned (line 86). The
    floating-point column [value_eth] of line 85 is read by nothing in
    the pipeline and is left out. *)
Record Swap : Type := {
  raw :> RawRow;
  amount0 : Z;
  amount1 : Z
}.

(** The row once [time_diff] and [is_bot] are assigned (lines 91-94);
    [None] is pandas' [NaT]. *)
Record Classified : Type := {
  swap :> Swap;
  time_diff : option Z;
  is_bot : bool
}.

(** The row of the returned frame, with its [AI_Narrative]. *)
Record Annotated : Type := {
  event :> Classified;
  AI_Narrative : string
}.

(** ** Decoding every row (line 86) *)

(** The two amounts of a row are kept as the integers that
    [decode_swap_log] returns. pandas stores them in two columns whose
    dtype it infers from all the rows together, and integers that do not
    all fit one integer dtype may be stored as [float64]: the amounts of
    the model, and the numbers that [prompt] writes, are those of the
    program when the columns hold the integers exactly. Which rows are
    returned, their order, flags and narratives, and the number and the
    positions of the calls do not depend on the stored amounts. *)
Definition decode_row (r : RawRow) : result Swap :=
  '(a0, a1) ← decode_swap_log (data r);
  Ok {| raw := r; amount0 := a0; amount1 := a1 |}.

(** [Series.apply]: row after row, the first exception leaves the call. *)
Fixpoint decode_rows (df : list RawRow) : result (list Swap) :=
  match df with
  | [] => Ok []
  | r :: df' =>
      s ← decode_row r;
      rest ← decode_rows df';
      Ok (s :: rest)
  end.

(** ** Bot detection (lines 89-94) *)

(** The order of [sort_values(by=['sender', 'block_timestamp'])]: senders
    as Python compares strings, then timestamps. How a sort arranges the
    rows that are equal under its order plays no part below. *)
Definition by_sender_timestamp (r1 r2 : Swap) : Prop :=
  String.le (sender r1) (sender r2) ∧
  (sender r1 = sender r2 → block_timestamp r1 ≤ block_timestamp r2).

Global Instance by_sender_timestamp_dec : RelDecision by_sender_timestamp.
Proof. intros r1 r2. unfold by_sender_timestamp. apply _. Defined.

(** [groupby('sender')['block_timestamp'].diff()], row by row in frame
    order: the timestamp minus that of the previous row of the same
    sender, [NaT] for the first row of each sender. [last] holds, per
    sender, the timestamp of its latest row so far. *)
Fixpoint groupby_diff (last : gmap string Z) (df : list Swap) : list (option Z) :=
  match df with
  | [] => []
  | r :: df' =>
      ((λ prev, block_timestamp r - prev) <$> last !! sender r)
        :: groupby_diff (<[sender r := block_timestamp r]> last) df'
  end.

(** [pd.Timedelta(minutes=5)], in nanoseconds. *)
Definition threshold : Z := 5 * 60 * 1000000000.

(** [time_diff <= threshold]; a comparison with [NaT] is [False]. *)
Definition within_threshold (d : option Z) : bool :=
  match d with
  | Some d => d <=? threshold
  | None => false
  end.

(** [Series.unique()]: the values in order of first appearance. *)
Fixpoint unique (l : list string) : list string :=
  match l with
  | [] => []
  | x :: l' => x :: filter (λ y, y ≠ x) (unique l')
  end.

(** [df[df['time_diff'] <= threshold]['sender'].unique()] over the frame
    with its [time_diff] column. *)
Definition bot_senders (df : list (Swap * option Z)) : list string :=
  unique ((λ p : Swap * option Z, sender (fst p)) <$>
              (filter (λ p : Swap * option Z, within_threshold (snd p) = true) df)).

Definition classify (df : list Swap) : list Classified :=
  let df := merge_sort by_sender_timestamp df in
  let df := zip df (groupby_diff ∅ df) in
  let bots := bot_senders df in
  (λ p : Swap * option Z,
     {| swap := fst p; time_diff := snd p;
        is_bot := bool_decide (sender (fst p) ∈ bots) |}) <$> df.

(** ** The feed (line 97) *)

(** The order of [sort_values(by='block_timestamp', ascending=False)]. *)
Definition newest_first (r1 r2 : Classified) : Prop :=
  block_timestamp r2 ≤ block_timestamp r1.

Global Instance newest_first_dec : RelDecision newest_first.
Proof. intros r1 r2. unfold newest_first. apply _. Defined.

(** [df.head(n)]: the first [n] rows, all of them when there are fewer. *)
Definition head {A} (n : nat) (df : list A) : list A := take n df.

(** The twenty newest rows. A sort fixes the order of the timestamps,
    not the arrangement of rows with equal timestamps, which
    [merge_sort] and [sort_values] may choose differently: of the feed,
    the theorems use that it is sorted, that it is the first twenty rows
    of a rearrangement of the classified frame, and its length. *)
Definition display_set (df : list Swap) : list Classified :=
  head 20 (merge_sort newest_first (classify df)).

(** ** The prompt (lines 102-116) *)

(** The format specification [:,] on an [int]: decimal digits in groups
    of three from the right, a minus sign in front when negative. *)
Fixpoint commas_rev (rs : list ascii) : list ascii :=
  match rs with
  | a :: b :: c :: (_ :: _) as rest => a :: b :: c :: ","%char :: commas_rev rest
  | _ => rs
  end.

Definition format_nat_commas (n : N) : string :=
  string_of_list_ascii
    (rev (commas_rev (rev (list_ascii_of_string (NilZero.string_of_uint (N.to_uint n)))))).

Definition format_commas (z : Z) : string :=
  if z <? 0 then "-" +:+ format_nat_commas (Z.to_N (- z))
  else format_nat_commas (Z.to_N z).

Definition dquote : string := String "034"%char EmptyString.
Definition newline : string := String "010"%char EmptyString.
Definition indent : string := "        ".

Definition action (row : Classified) : string :=
  if amount0 row <? 0
  then "user bought " +:+ format_commas (- amount0 row) +:+ " of token0 and sold "
         +:+ format_commas (amount1 row) +:+ " of token1"
  else "user sold " +:+ format_commas (amount0 row) +:+ " of token0 and bought "
         +:+ format_commas (- amount1 row) +:+ " of token1".

Definition bot_note (row : Classified) : string :=
  if is_bot row
  then "this wallet is flagged as a bot due to high-frequency trading."
  else "".

Definition prompt (row : Classified) : string :=
  "you are a financial analyst. summarize this trade in 1 sentence." +:+ newline
  +:+ indent +:+ "focus on the decoded action: " +:+ dquote +:+ action row +:+ dquote
  +:+ ". " +:+ newline
  +:+ indent +:+ "instruction: large numbers (billions+) usually imply meme coins. small numbers (0-100) often imply major assets like eth/wbtc." +:+ newline
  +:+ indent +:+ bot_note row +:+ newline
  +:+ indent +:+ "end with exactly one tag: [bullish], [bearish], or [neutral]." +:+ newline
  +:+ indent.

(** ** The narrative service (lines 118-125) *)

(** What [model.generate_content(prompt)] followed by [response.text]
    does: a text, or an exception, told apart as the handlers do. The
    first handler is for [NotFound] and [TooManyRequests] (and their
    subclasses), the second for every other [Exception]. *)
Inductive response : Type :=
  | Text (t : string)
  | RaiseNotFound            (* google.api_core.exceptions.NotFound *)
  | RaiseTooManyRequests     (* google.api_core.exceptions.TooManyRequests *)
  | RaiseException.          (* any other Exception *)

(** The service as the run sees it: the answer to the [n]-th call
    (counted from 0) with a given prompt. *)
Definition Service : Type := nat → string → response.

(** [str.isspace] on the code points below 256. *)
Definition isspace (c : ascii) : bool :=
  let n := Z.of_N (N_of_ascii c) in
  ((9 <=? n) && (n <=? 13)) || ((28 <=? n) && (n <=? 32)) || (n =? 133) || (n =? 160).

Fixpoint lstrip (s : string) : string :=
  match s with
  | EmptyString => EmptyString
  | String c s' => if isspace c then lstrip s' else s
  end.

Definition rstrip (s : string) : string := String.rev (lstrip (String.rev s)).

Definition strip (s : string) : string := rstrip (lstrip s).

Definition unavailable : string := "analysis unavailable (api limit). [neutral]".
Definition failed : string := "analysis failed. [neutral]".
Definition skipped : string := "analysis skipped to save api credits. [neutral]".

(** The [try] statement of one iteration. *)
Definition narrative_of (r : response) : string :=
  match r with
  | Text t => strip t
  | RaiseNotFound | RaiseTooManyRequests => unavailable
  | RaiseException => failed
  end.

(** The state of the loop: [ai_narratives] and the prompts sent to the
    service so far. *)
Record LoopState : Type := {
  ai_narratives : list string;
  calls : list string
}.

(** One iteration of the loop over [df.head(10).iterrows()]. *)
Definition narrate_row (model : Service) (st : LoopState) (row : Classified) : LoopState :=
  let p := prompt row in
  {| ai_narratives := ai_narratives st ++ [narrative_of (model (length (calls st)) p)];
     calls := calls st ++ [p] |}.

(** [for _ in range(len(df) - 10): ai_narratives.append(skipped)];
    a negative bound gives an empty range. *)
Definition skip_remaining (df : list Classified) (st : LoopState) : LoopState :=
  {| ai_narratives :=
       ai_narratives st ++ replicate (Z.to_nat (Z.of_nat (length df) - 10)) skipped;
     calls := calls st |}.

Definition annotate (model : Service) (df : list Classified) : LoopState :=
  skip_remaining df
    (fold_left (narrate_row model) (head 10 df) {| ai_narratives := []; calls := [] |}).

(** [df['AI_Narrative'] = values]: a list of another length than the
    frame is a [ValueError]. *)
Definition assign_column (df : list Classified) (values : list string)
  : result (list Annotated) :=
  if decide (length values = length df)
  then Ok (zip_with Build_Annotated df values)
  else Raise ValueError.

(** ** Configuration and the run (lines 25-132) *)

Record Env : Type := {
  GOOGLE_APPLICATION_CREDENTIALS : option string;  (* os.getenv *)
  GOOGLE_API_KEY : option string;                  (* os.getenv *)
  secrets_GOOGLE_API_KEY : option string
    (* st.secrets["GOOGLE_API_KEY"]; None when the import or the lookup raises *)
}.

(** [not os.getenv(name)]: unset or empty. *)
Definition unset (v : option string) : bool :=
  match v with
  | None => true
  | Some s => bool_decide (s = "")
  end.

Definition configure (env : Env) : result () :=
  if unset (GOOGLE_APPLICATION_CREDENTIALS env) then Raise CredentialsNotSet
  else if unset (GOOGLE_API_KEY env)
       then match secrets_GOOGLE_API_KEY env with
            | Some _ => Ok ()
            | None => Raise GeminiConfigFailure
            end
       else Ok ().

(** Everything outside the function: the environment, whether the
    construction of the BigQuery client raises, what the query gives
    ([None]: [query] or [to_dataframe] raises) and the service. *)
Record World : Type := {
  env : Env;
  client_raises : bool;
  query : option (list RawRow);
  model : Service
}.

(** Lines 28-51, all that precedes the query; none of it is inside the
    [try] of line 75. *)
Definition startup (w : World) : result () :=
  _ ← configure (env w);
  if client_raises w then Raise ClientError else Ok ().

(** The outcome of a run: what is returned or raised, and the prompts
    that were sent to the narrative service. *)
Record Run : Type := {
  returned : result (list Annotated);
  service_calls : list string
}.

Definition get_crypto_data (w : World) : Run :=
  match startup w with
  | Raise e => {| returned := Raise e; service_calls := [] |}
  | Ok _ =>
      match query w with
      | None => {| returned := Ok []; service_calls := [] |}
      | Some [] => {| returned := Ok []; service_calls := [] |}
      | Some df =>
          match decode_rows df with
          | Raise e => {| returned := Raise e; service_calls := [] |}
          | Ok df =>
              let df := display_set df in
              let st := annotate (model w) df in
              {| returned := assign_column df (ai_narratives st);
                 service_calls := calls st |}
          end
      end
  end.

(** * What the specification talks about *)

(** ** The decoder *)

(** A string of hexadecimal digits only. *)
Definition hex_only (s : string) : Prop :=
  Forall (λ c, is_Some (hex_digit_value c)) (list_ascii_of_string s).

(** The claim of the specification, as it is written: a payload with
    fewer than 128 characters after the marker, or with a character
    that is no hexadecimal digit among the first 128. *)
Definition malformed (s : string) : Prop :=
  let p := strip_marker s in
  (String.length p < 128)%nat ∨
  ∃ i c, (i < 128)%nat ∧ String.get i p = Some c ∧ hex_digit_value c = None.

(** The encoder of the round trip, after the specification's words: each
    amount as 32 bytes, big-endian, two's complement, in hexadecimal. *)

(** [n] bytes of [u], most significant first. *)
Fixpoint int_to_bytes_big (n : nat) (u : Z) : list Z :=
  match n with
  | O => []
  | S k => (u / 256 ^ Z.of_nat k) mod 256 :: int_to_bytes_big k u
  end.

(** The lower-case digit of a value below 16. *)
Definition hex_char (v : Z) : ascii :=
  ascii_of_N (Z.to_N (if v <? 10 then 48 + v else 87 + v)).

(** [bytes.hex()]: two digits per byte. *)
Fixpoint bytes_hex (bs : list Z) : string :=
  match bs with
  | [] => EmptyString
  | b :: bs' => String (hex_char (b ≫ 4)) (String (hex_char (Z.land b 15)) (bytes_hex bs'))
  end.

(** One segment: the 64 hexadecimal characters of the 256-bit
    two's-complement representation, big-endian. *)
Definition twos_complement_hex (v : Z) : string :=
  bytes_hex (int_to_bytes_big 32 (v mod 2 ^ 256)).

Definition decode_to_hex (amount0 amount1 : Z) : string :=
  twos_complement_hex amount0 +:+ twos_complement_hex amount1.

(** The signed 256-bit range. *)
Definition int256 (v : Z) : Prop := - 2 ^ 255 ≤ v < 2 ^ 255.

(** ** The classifier *)

(** The timestamps of an actor's events, in frame order. *)
Definition timestamps_of (a : string) (df : list Swap) : list Z :=
  (λ r : Swap, block_timestamp r) <$> filter (λ r : Swap, sender r = a) df.

(** Two consecutive entries of a list of timestamps no more than the
    threshold apart. *)
Definition close_pair (l : list Z) : Prop :=
  ∃ i t1 t2, l !! i = Some t1 ∧ l !! S i = Some t2 ∧ t2 - t1 ≤ threshold.

(** Every consecutive delta exceeds the threshold. *)
Definition all_gaps_exceed (l : list Z) : Prop :=
  ∀ i t1 t2, l !! i = Some t1 → l !! S i = Some t2 → threshold < t2 - t1.

(** ** The run *)

(** A row whose payload the decoder accepts. *)
Definition decodable (r : RawRow) : Prop :=
  ∃ amounts, decode_swap_log (data r) = Ok amounts.

(** The failures of the narrative service as the specification tells
    them apart: a rate-limit or quota failure, which the client library
    raises as [TooManyRequests] (HTTP 429, with [ResourceExhausted] as a
    subclass), and any other failure. *)
Definition failure (r : response) : Prop := ∀ t, r ≠ Text t.

Definition rate_limit_failure (r : response) : Prop := r = RaiseTooManyRequests.

Definition other_failure (r : response) : Prop := failure r ∧ ¬ rate_limit_failure r.

(** The narrative of the row at position [i] of the feed: the outcome of
    the [i]-th call for the first ten rows, the placeholder after them. *)
Definition narrative_at (model : Service) (i : nat) (row : Classified) : string :=
  if decide (i < 10)%nat then narrative_of (model i (prompt row)) else skipped.

(** ** Derived notions *)

(** Whether a list of timestamps, with the timestamp in front of it if
    any, has two consecutive entries within the threshold. *)
Fixpoint close_from (prev : option Z) (l : list Z) : bool :=
  match l with
  | [] => false
  | t :: l' => within_threshold ((λ p, t - p) <$> prev) || close_from (Some t) l'
  end.

Global Instance decodable_dec (r : RawRow) : Decision (decodable r).
Proof.
  unfold decodable. destruct (decode_swap_log (data r)) as [amounts|e].
  - left. by exists amounts.
  - right. intros [amounts H]. discriminate H.
Defined.

(** The frame a run returns over a feed: each row with its narrative. *)
Definition annotated (model : Service) (df : list Classified) : list Annotated :=
  imap (λ i row, {| event := row; AI_Narrative := narrative_at model i row |}) df.

(** * Sample data *)

Definition minute : Z := 60 * 1000000000.

Definition sample_row (a : string) (t : Z) (payload : string) : RawRow :=
  {| sender := a; pool_address := "0xpool"; data := payload; value := "0";
     block_timestamp := t |}.

Definition sample_swap (a : string) (t : Z) : Swap :=
  {| raw := sample_row a t "0x"; amount0 := 0; amount1 := 0 |}.

(** The feed of the query, newest first: "0xA" at 10:04:00 and 10:00:00,
    "0xB" at 10:01:00 and 9:50:00, "0xC" at 9:59:00. *)
Definition sample_frame : list Swap :=
  [sample_swap "0xA" (604 * minute); sample_swap "0xB" (601 * minute);
   sample_swap "0xA" (600 * minute); sample_swap "0xC" (599 * minute);
   sample_swap "0xB" (590 * minute)].

(** A payload of 128 characters after the marker, two of them blanks. *)
Definition spaced_payload : string :=
  "0xffffffffffffffffffffffffffffffffffffffffffffffffffffffffffffff  0000000000000000000000000000000000000000000000000000000000000001".

Definition sample_env : Env :=
  {| GOOGLE_APPLICATION_CREDENTIALS := Some "key.json";
     GOOGLE_API_KEY := Some "key";
     secrets_GOOGLE_API_KEY := None |}.

(** A service that is rate-limited at its third call, fails at its
    sixth and does not find the model at its eighth. *)
Definition sample_model : Service := λ n _,
  match n with
  | 2%nat => RaiseTooManyRequests
  | 5%nat => RaiseException
  | 7%nat => RaiseNotFound
  | _ => Text " a quiet trade. [neutral] "
  end.

(** [n] rows, seven minutes apart, of two senders in turn. *)
Definition sample_rows (n : nat) : list RawRow :=
  (λ k : nat, sample_row (if Nat.even k then "0xA" else "0xB")
                         (Z.of_nat k * 7 * minute) "0x01") <$> seq 0 n.

Definition sample_world (q : option (list RawRow)) : World :=
  {| env := sample_env; client_raises := false; query := q; model := sample_model |}.

(** * Further notions *)

(** ** The decoder *)

(** The signed range of [n] bytes. *)
Definition int_range (n : nat) (v : Z) : Prop :=
  - 2 ^ (8 * Z.of_nat n - 1) ≤ v < 2 ^ (8 * Z.of_nat n - 1).

(** The upper-case form of the hexadecimal digits [a] to [f]; every
    other character, the [x] of the marker included, is left alone. *)
Definition hex_upper (c : ascii) : ascii :=
  let n := Z.of_N (N_of_ascii c) in
  if (97 <=? n) && (n <=? 102) then ascii_of_N (Z.to_N (n - 32)) else c.

Fixpoint map_string (f : ascii → ascii) (s : string) : string :=
  match s with
  | EmptyString => EmptyString
  | String c s' => String (f c) (map_string f s')
  end.

(** ** The classifier *)

(** Two rows of one actor, at different positions of the frame, whose
    timestamps are no more than the threshold apart. *)
Definition near_pair (a : string) (df : list Swap) : Prop :=
  ∃ i j (r1 r2 : Swap),
    (i < j)%nat ∧ df !! i = Some r1 ∧ df !! j = Some r2 ∧
    sender r1 = a ∧ sender r2 = a ∧
    Z.abs (block_timestamp r1 - block_timestamp r2) ≤ threshold.

(** ** The script (lines 134-138) *)

(** How the module ends when it is run as a script: the exception of
    [get_crypto_data], the [KeyError] of selecting the five columns from
    [pd.DataFrame()], which has none and is the only empty frame that
    [get_crypto_data] returns, or the printed first ten rows. *)
Inductive script_outcome : Type :=
  | ScriptRaises (e : exn)
  | ScriptKeyError
  | ScriptPrints (table : list (string * bool * Z * Z * string)).

Definition main (w : World) : script_outcome :=
  match returned (get_crypto_data w) with
  | Raise e => ScriptRaises e
  | Ok [] => ScriptKeyError
  | Ok df_result =>
      ScriptPrints
        (head 10 ((λ a : Annotated,
                     (sender a, is_bot a, amount0 a, amount1 a, AI_Narrative a))
                  <$> df_result))
  end.

(** ** More sample data *)


(** * [app.py] *)

(** ** [load_secrets] (lines 16-34) *)

(** The process in which the app starts: [os.environ], the variables of
    the [.env] file (none without a file), the Streamlit secrets
    ([None]: reading them raises, as without a [secrets.toml]) and
    whether Streamlit, when it parses the secrets, also exports the
    root-level ones to [os.environ]. Secrets are strings. *)
Record Process : Type := {
  os_environ : gmap string string;
  dotenv_file : gmap string string;
  st_secrets : option (gmap string string);
  secrets_exported : bool
}.

(** python-dotenv's [load_dotenv()] with its default [override=False]:
    a variable that the environment has already is left as it is. *)
Definition load_dotenv (dotenv environ : gmap string string) : gmap string string :=
  environ ∪ dotenv.

(** [os.environ] after [load_secrets()]. Every exception, the [KeyError]
    of a missing secret included, ends in [load_dotenv()], after the
    assignments made before it. *)
Definition load_secrets (p : Process) : gmap string string :=
  match st_secrets p with
  | None => load_dotenv (dotenv_file p) (os_environ p)
  | Some secrets =>
      let environ :=
        if secrets_exported p then secrets ∪ os_environ p else os_environ p in
      match secrets !! "GOOGLE_API_KEY" with
      | None => load_dotenv (dotenv_file p) environ
      | Some key =>
          if bool_decide (key = "") then load_dotenv (dotenv_file p) environ
          else
            let environ := <["GOOGLE_API_KEY" := key]> environ in
            match secrets !! "GCP_PROJECT" with
            | None => load_dotenv (dotenv_file p) environ
            | Some project =>
                let environ := <["GCP_PROJECT" := project]> environ in
                match secrets !! "GOOGLE_APPLICATION_CREDENTIALS" with
                | None => load_dotenv (dotenv_file p) environ
                | Some credentials =>
                    <["GOOGLE_APPLICATION_CREDENTIALS" := credentials]> environ
                end
            end
      end
  end.

(** What [get_crypto_data] reads, called from the app: its own
    [load_dotenv()], then [os.getenv], and the same secrets. *)
Definition app_env (p : Process) : Env :=
  let environ := load_dotenv (dotenv_file p) (load_secrets p) in
  {| GOOGLE_APPLICATION_CREDENTIALS := environ !! "GOOGLE_APPLICATION_CREDENTIALS";
     GOOGLE_API_KEY := environ !! "GOOGLE_API_KEY";
     secrets_GOOGLE_API_KEY := st_secrets p ≫= (λ secrets, secrets !! "GOOGLE_API_KEY") |}.

Definition sample_secrets : gmap string string :=
  {[ "GOOGLE_API_KEY" := "secret-key"; "GCP_PROJECT" := "secret-project";
     "GOOGLE_APPLICATION_CREDENTIALS" := "secret.json" ]}.

Definition sample_process (secrets : option (gmap string string)) : Process :=
  {| os_environ := {[ "GOOGLE_API_KEY" := "old-key"; "HOME" := "/home/app" ]};
     dotenv_file := {[ "GOOGLE_API_KEY" := "dotenv-key"; "GCP_PROJECT" := "dotenv-project" ]};
     st_secrets := secrets;
     secrets_exported := true |}.

(** ** The page (lines 59-102) *)

(** [Series.nunique()]. *)
Definition nunique (l : list string) : nat := length (unique l).

Definition active_wallets (df : list Annotated) : nat :=
  nunique ((λ a : Annotated, sender a) <$> df).

Definition tx_count (df : list Annotated) : nat := length df.

Definition active_bots (df : list Annotated) : nat :=
  nunique ((λ a : Annotated, sender a) <$> filter (λ a : Annotated, is_bot a = true) df).

Definition badge (row : Annotated) : string :=
  if is_bot row then "[bot]" else "[user]".

(** Two decimal digits, as [%H], [%M] and [%S] print a number below 100. *)
Definition two_digits (n : Z) : string :=
  String (ascii_of_N (Z.to_N (48 + n / 10)))
    (String (ascii_of_N (Z.to_N (48 + n mod 10))) EmptyString).

(** [strftime('%H:%M:%S')] of an instant given in nanoseconds. *)
Definition trade_time (t : Z) : string :=
  let seconds := t / 1000000000 in
  two_digits ((seconds / 3600) mod 24) +:+ ":" +:+
  two_digits ((seconds / 60) mod 60) +:+ ":" +:+
  two_digits (seconds mod 60).

Definition header (row : Annotated) : string :=
  badge row +:+ " trade by " +:+ sender row +:+ " at " +:+ trade_time (block_timestamp row).

(** [str.lower] on the code points below 256. *)
Definition lower_char (c : ascii) : ascii :=
  let n := Z.of_N (N_of_ascii c) in
  if ((65 <=? n) && (n <=? 90)) || ((192 <=? n) && (n <=? 214)) || ((216 <=? n) && (n <=? 222))
  then ascii_of_N (Z.to_N (n + 32))
  else c.

Definition lower (s : string) : string := map_string lower_char s.

(** [needle in hay]. *)
Fixpoint contains (needle hay : string) : bool :=
  String.prefix needle hay ||
  match hay with
  | EmptyString => false
  | String _ hay' => contains needle hay'
  end.

(** What the page shows. The JSON of a row is not spelled out, nor is
    the text of an exception. *)
#[warnings="-register-all"]
Inductive widget : Type :=
  | st_metric (label value : string)
  | st_markdown (body : string)
  | st_subheader (body : string)
  | st_expander (label : string) (body : list widget)
  | st_success (body : string)
  | st_error (body : string)
  | st_info (body : string)
  | st_warning (body : string)
  | st_write (body : string)
  | st_json (row : Annotated)
  | st_error_exception (e : exn).   (* st.error(f"an application error occurred: {e}") *)

(** The box of a narrative (lines 87-92). *)
Definition narrative_box (narrative : string) : widget :=
  if contains "[bullish]" (lower narrative) then st_success narrative
  else if contains "[bearish]" (lower narrative) then st_error narrative
  else st_info narrative.

Definition expander (row : Annotated) : widget :=
  st_expander (header row)
    [narrative_box (AI_Narrative row); st_write "transaction details:"; st_json row].

Definition str_nat (n : nat) : string := NilZero.string_of_uint (Nat.to_uint n).

(** What the [try] statement of the page renders for an outcome of
    [get_crypto_data]. *)
Definition page (outcome : result (list Annotated)) : list widget :=
  match outcome with
  | Raise e =>
      [st_error_exception e;
       st_error "please ensure your google_api_key and other credentials are correctly set in st.secrets or your .env file."]
  | Ok [] =>
      [st_warning "no significant uniswap v3 swap data found in the last 24 hours."]
  | Ok df =>
      [st_metric "active wallets in feed" (str_nat (active_wallets df));
       st_metric "transactions analyzed" (str_nat (tx_count df));
       st_metric "active bots detected" (str_nat (active_bots df));
       st_markdown "---";
       st_subheader "live transaction feed"]
      ++ (expander <$> df)
  end.

Definition app (w : World) : list widget := page (returned (get_crypto_data w)).

(** One day, in nanoseconds. *)
Definition day : Z := 24 * 60 * minute.

(** * Tests *)

Example decode_ex1 : decode_swap_log "0xff" = Ok (-1, 0).
Proof. reflexivity. Qed.

Example format_ex1 : format_commas 1234567 = "1,234,567".
Proof. reflexivity. Qed.
Example format_ex2 : format_commas (-1234) = "-1,234".
Proof. reflexivity. Qed.
Example format_ex3 : format_commas 0 = "0" ∧ format_commas 999 = "999" ∧ format_commas 100000 = "100,000".
Proof. repeat split; reflexivity. Qed.
Example strip_ex1 : strip "  a b  " = "a b".
Proof. reflexivity. Qed.

(** Whitespace in front of a byte is skipped by [bytes.fromhex], not
    between the two digits of a byte. *)
Example decode_swap_log_skips_whitespace :
  String.length (strip_marker spaced_payload) = 128%nat ∧
  String.get 62 (strip_marker spaced_payload) = Some " "%char ∧
  decode_swap_log spaced_payload = Ok (-1, 1) ∧
  decode_swap_log " ab" = Ok (-85, 0) ∧
  decode_swap_log "a b" = Raise ValueError.
Proof. repeat split; vm_compute; reflexivity. Qed.

(** Events of one actor at T, T + 4 min and T + 10 min: all flagged. *)
Example classify_ex1 :
  is_bot <$> classify [sample_swap "0xA" (600 * minute); sample_swap "0xA" (604 * minute);
                       sample_swap "0xA" (610 * minute)]
  = [true; true; true].
Proof. vm_compute. reflexivity. Qed.

(** Events at 10:00:00 and 10:10:00, and a single event: none flagged;
    a delta of exactly five minutes is within the threshold. *)
Example classify_ex2 :
  is_bot <$> classify [sample_swap "0xA" (600 * minute); sample_swap "0xA" (610 * minute);
                       sample_swap "0xB" (601 * minute)]
  = [false; false; false] ∧
  is_bot <$> classify [sample_swap "0xA" (600 * minute); sample_swap "0xA" (605 * minute)]
  = [true; true].
Proof. split; vm_compute; reflexivity. Qed.

(** The service is rate-limited at the third of twelve rows, fails at
    the sixth and misses the model at the eighth; the last two rows are
    beyond the ten that are sent. *)
Example get_crypto_data_ex1 :
  match returned (get_crypto_data (sample_world (Some (sample_rows 12)))) with
  | Ok out => AI_Narrative <$> out
  | Raise _ => []
  end
  =    ["a quiet trade. [neutral]"; "a quiet trade. [neutral]";
        "analysis unavailable (api limit). [neutral]";
        "a quiet trade. [neutral]"; "a quiet trade. [neutral]";
        "analysis failed. [neutral]"; "a quiet trade. [neutral]";
        "analysis unavailable (api limit). [neutral]";
        "a quiet trade. [neutral]"; "a quiet trade. [neutral]";
        "analysis skipped to save api credits. [neutral]";
        "analysis skipped to save api credits. [neutral]"] ∧
  length (service_calls (get_crypto_data (sample_world (Some (sample_rows 12))))) = 10%nat.
Proof. split; vm_compute; reflexivity. Qed.

(** A payload that does not decode ends the run with the exception. *)
Example get_crypto_data_ex2 :
  get_crypto_data (sample_world (Some [sample_row "0xA" 0 "0x01"; sample_row "0xB" 1 "0xzz"]))
  = {| returned := Raise ValueError; service_calls := [] |}.
Proof. vm_compute. reflexivity. Qed.

(** Missing credentials end the run before anything else. *)
Example get_crypto_data_ex3 :
  get_crypto_data {| env := {| GOOGLE_APPLICATION_CREDENTIALS := None;
                               GOOGLE_API_KEY := Some "key";
                               secrets_GOOGLE_API_KEY := None |};
                     client_raises := false;
                     query := Some (sample_rows 3);
                     model := sample_model |}
  = {| returned := Raise CredentialsNotSet; service_calls := [] |}.
Proof. vm_compute. reflexivity. Qed.

(** * The decoder *)

Section decoder.

Implicit Types (s p : string) (c d : ascii) (bs : list Z).

Lemma hex_digit_not_space c :
  is_Some (hex_digit_value c) → Py_ISSPACE c = false.
Proof.
  destruct c as [[] [] [] [] [] [] [] []]; vm_compute; intros [x Hx]; congruence.
Qed.

(** A character that is neither a hexadecimal digit nor ASCII whitespace
    makes [bytes.fromhex] raise, wherever it stands. *)
Lemma bytes_fromhex_bad_char s i c :
  String.get i s = Some c → hex_digit_value c = None → Py_ISSPACE c = false →
  bytes_fromhex s = Raise ValueError.
Proof.
  remember (String.length s) as n eqn:Hn.
  assert (Hle : (String.length s ≤ n)%nat) by lia. clear Hn.
  revert s i Hle. induction n as [|n IH]; intros s i Hle Hget Hhex Hsp.
  { destruct s; simpl in *; [by destruct i | lia]. }
  destruct s as [|c0 s']; [by destruct i|]. simpl in Hle. simpl.
  destruct (Py_ISSPACE c0) eqn:Hc0.
  { destruct i as [|i]; simpl in Hget; [congruence|]. apply (IH s' i); [lia|done..]. }
  destruct (hex_digit_value c0) as [top|] eqn:Htop; [|done].
  destruct s' as [|d s'']; [done|].
  destruct (hex_digit_value d) as [bot|] eqn:Hbot; [|done].
  destruct i as [|[|i]]; simpl in Hget; [congruence..|].
  simpl in Hle. rewrite (IH s'' i); [done|lia|done..].
Qed.

Lemma bytes_fromhex_odd s :
  hex_only s → Nat.Odd (String.length s) → bytes_fromhex s = Raise ValueError.
Proof.
  intros Hhex [k Hk]. revert s Hhex Hk.
  induction k as [|k IH]; intros s Hhex Hk.
  - destruct s as [|c [|d s'']]; simpl in Hk; try lia.
    apply Forall_cons in Hhex as [Hc _]. simpl.
    rewrite (hex_digit_not_space c Hc). by destruct Hc as [v ->].
  - destruct s as [|c [|d s'']]; simpl in Hk; try lia.
    apply Forall_cons in Hhex as [Hc Hhex]. apply Forall_cons in Hhex as [Hd Hhex].
    simpl. rewrite (hex_digit_not_space c Hc).
    destruct Hc as [v ->], Hd as [v' ->].
    rewrite (IH s''); [done|done|lia].
Qed.

Lemma list_ascii_length s : length (list_ascii_of_string s) = String.length s.
Proof. induction s; simpl; congruence. Qed.

(** Slices are [take] and [drop] on the characters. *)
Lemma list_ascii_substring n m s :
  list_ascii_of_string (String.substring n m s) = take m (drop n (list_ascii_of_string s)).
Proof.
  revert n m. induction s as [|c s IH]; intros [|n] [|m]; simpl;
    rewrite ?IH, ?drop_0; done.
Qed.

Lemma string_length_substring n m s :
  String.length (String.substring n m s) = (m `min` (String.length s - n))%nat.
Proof.
  rewrite <- !list_ascii_length, list_ascii_substring, length_take, length_drop. done.
Qed.

Lemma hex_only_substring n m s : hex_only s → hex_only (String.substring n m s).
Proof.
  unfold hex_only. rewrite list_ascii_substring. intros H.
  by apply Forall_take, Forall_drop.
Qed.

Lemma string_of_list_eq s1 s2 :
  list_ascii_of_string s1 = list_ascii_of_string s2 → s1 = s2.
Proof.
  intros H. rewrite <- (string_of_list_ascii_of_string s1), H.
  apply string_of_list_ascii_of_string.
Qed.

(** The two segments of a payload of length [n]. *)
Lemma segment0_length p : String.length (slice 0 64 p) = (64 `min` String.length p)%nat.
Proof. unfold slice. rewrite string_length_substring. lia. Qed.

Lemma segment1_length p :
  String.length (slice 64 128 p) = (64 `min` (String.length p - 64))%nat.
Proof. unfold slice. by rewrite string_length_substring. Qed.

Lemma get_segment0 p i c :
  (i < 64)%nat → String.get i p = Some c → String.get i (slice 0 64 p) = Some c.
Proof.
  intros Hi Hget. unfold slice. rewrite String.substring_correct1 by lia.
  by rewrite Nat.add_0_r.
Qed.

Lemma get_segment1 p i c :
  (64 ≤ i < 128)%nat → String.get i p = Some c →
  String.get (i - 64) (slice 64 128 p) = Some c.
Proof.
  intros Hi Hget. unfold slice. rewrite String.substring_correct1 by lia.
  by replace (i - 64 + 64)%nat with i by lia.
Qed.

Lemma decode_swap_log_segments s :
  decode_swap_log s =
    b0 ← bytes_fromhex (slice 0 64 (strip_marker s));
    b1 ← bytes_fromhex (slice 64 128 (strip_marker s));
    Ok (int_from_bytes_big_signed b0, int_from_bytes_big_signed b1).
Proof. reflexivity. Qed.

Lemma bytes_fromhex_raises s e : bytes_fromhex s = Raise e → e = ValueError.
Proof.
  remember (String.length s) as n eqn:Hn.
  assert (Hle : (String.length s ≤ n)%nat) by lia. clear Hn.
  revert s Hle. induction n as [|n IH]; intros s Hle.
  { destruct s; simpl in *; [done | lia]. }
  destruct s as [|c0 s']; [done|]. simpl in Hle. simpl.
  destruct (Py_ISSPACE c0); [apply IH; lia|].
  destruct (hex_digit_value c0); [|congruence].
  destruct s' as [|d s'']; [congruence|].
  destruct (hex_digit_value d); [|congruence].
  simpl in Hle. destruct (bytes_fromhex s'') eqn:Hrec; simpl; [done|].
  intros [= <-]. apply (IH s''); [lia|done].
Qed.

(** A failure of either segment is the failure of the decoder. *)
Lemma decode_swap_log_raises s :
  bytes_fromhex (slice 0 64 (strip_marker s)) = Raise ValueError ∨
  bytes_fromhex (slice 64 128 (strip_marker s)) = Raise ValueError →
  decode_swap_log s = Raise ValueError.
Proof.
  rewrite decode_swap_log_segments. intros [-> | H1]; [done|].
  destruct (bytes_fromhex (slice 0 64 _)) as [b0|e] eqn:H0; simpl.
  - by rewrite H1.
  - by rewrite (bytes_fromhex_raises _ _ H0).
Qed.

(** C9: on the empty string and on the bare marker both segments are the
    empty slice, each is the integer 0, and the decoder returns (0, 0). *)
Theorem decode_swap_log_empty :
  slice 0 64 (strip_marker "") = "" ∧ slice 64 128 (strip_marker "") = "" ∧
  slice 0 64 (strip_marker "0x") = "" ∧ slice 64 128 (strip_marker "0x") = "" ∧
  bytes_fromhex "" = Ok [] ∧ int_from_bytes_big_signed [] = 0 ∧
  decode_swap_log "" = Ok (0, 0) ∧ decode_swap_log "0x" = Ok (0, 0).
Proof. repeat split; reflexivity. Qed.

(** C1, as stated, fails: the empty payload is shorter than 128
    characters and is decoded to (0, 0). *)
Lemma decode_swap_log_short_payload_accepted :
  malformed "" ∧ decode_swap_log "" = Ok (0, 0) ∧
  ¬ (∀ s, malformed s → raises (decode_swap_log s)).
Proof.
  assert (Hshort : malformed "") by (left; simpl; lia).
  split; [done|]. split; [reflexivity|].
  intros Hall. destruct (Hall "" Hshort) as [e He]. discriminate He.
Qed.

(** C1, amended: the decoder raises when one of the first 128 characters
    after the marker is neither a hexadecimal digit nor ASCII whitespace,
    and when the payload after the marker is made of hexadecimal digits
    only and has an odd length below 128. *)
Theorem decode_swap_log_rejects (s : string) :
  (∃ i c, (i < 128)%nat ∧ String.get i (strip_marker s) = Some c ∧
          hex_digit_value c = None ∧ Py_ISSPACE c = false) ∨
  (hex_only (strip_marker s) ∧ (String.length (strip_marker s) < 128)%nat ∧
   Nat.Odd (String.length (strip_marker s))) →
  decode_swap_log s = Raise ValueError.
Proof.
  intros [(i & c & Hi & Hget & Hhex & Hsp) | (Hhex & Hlen & Hodd)];
    apply decode_swap_log_raises.
  - destruct (decide (i < 64)%nat) as [Hlt|Hge].
    + left. eapply bytes_fromhex_bad_char; [by apply get_segment0|done..].
    + right. apply (bytes_fromhex_bad_char _ (i - 64) c); [|done..].
      apply get_segment1; [lia|done].
  - destruct (decide (String.length (strip_marker s) < 64)%nat) as [Hlt|Hge].
    + left. apply bytes_fromhex_odd; [by apply hex_only_substring|].
      rewrite segment0_length, Nat.min_r by lia. done.
    + right. apply bytes_fromhex_odd; [by apply hex_only_substring|].
      rewrite segment1_length. destruct Hodd as [k Hk]. exists (k - 32)%nat. lia.
Qed.

Lemma decode_swap_log_rejects_witness :
  decode_swap_log "0xzz" = Raise ValueError ∧ decode_swap_log "0xabc" = Raise ValueError.
Proof.
  split; apply decode_swap_log_rejects.
  - left. exists 0%nat, "z"%char. repeat split; [lia|reflexivity..].
  - right. split; [|split].
    + repeat constructor; by eexists.
    + simpl; lia.
    + exists 1%nat. reflexivity.
Defined.

Lemma hex_char_value v : 0 ≤ v < 16 → hex_digit_value (hex_char v) = Some v.
Proof.
  intros Hv.
  assert (Hcases : Exists (λ k, v = k) [0;1;2;3;4;5;6;7;8;9;10;11;12;13;14;15]).
  { rewrite !Exists_cons. lia. }
  rewrite !Exists_cons, Exists_nil in Hcases.
  repeat (destruct Hcases as [-> | Hcases]; [reflexivity|]). done.
Qed.

Lemma hex_char_not_x v : 0 ≤ v < 16 → hex_char v ≠ "x"%char.
Proof.
  intros Hv Heq. pose proof (hex_char_value v Hv) as H. rewrite Heq in H. discriminate H.
Qed.

Lemma byte_nibbles b :
  0 ≤ b < 256 → 0 ≤ b ≫ 4 < 16 ∧ 0 ≤ Z.land b 15 < 16 ∧ ((b ≫ 4) ≪ 4) + Z.land b 15 = b.
Proof.
  intros Hb. rewrite Z.shiftr_div_pow2, Z.shiftl_mul_pow2 by lia.
  change 15 with (Z.ones 4). rewrite Z.land_ones by lia.
  change (2 ^ 4) with 16. 
  pose proof (Z.div_mod b 16). pose proof (Z.mod_pos_bound b 16).
  assert (0 ≤ b / 16 < 16) by (split; [apply Z.div_pos; lia | apply Z.div_lt_upper_bound; lia]).
  lia.
Qed.

Lemma int_to_bytes_big_range n u : Forall (λ b, 0 ≤ b < 256) (int_to_bytes_big n u).
Proof.
  induction n as [|n IH]; simpl; constructor; [|done].
  apply Z.mod_pos_bound. lia.
Qed.

Lemma int_to_bytes_big_length n u : length (int_to_bytes_big n u) = n.
Proof. induction n; simpl; congruence. Qed.

(** [bytes.fromhex] undoes [bytes.hex]. *)
Lemma bytes_fromhex_hex bs : Forall (λ b, 0 ≤ b < 256) bs → bytes_fromhex (bytes_hex bs) = Ok bs.
Proof.
  induction 1 as [|b bs Hb _ IH]; [done|].
  destruct (byte_nibbles b Hb) as (Hhi & Hlo & Heq).
  simpl. rewrite (hex_digit_not_space (hex_char (b ≫ 4))) by (rewrite hex_char_value; done).
  rewrite !hex_char_value by done. rewrite IH. simpl. by rewrite Heq.
Qed.

Lemma bytes_hex_length bs : String.length (bytes_hex bs) = (2 * length bs)%nat.
Proof. induction bs as [|b bs IH]; simpl; lia. Qed.

Lemma twos_complement_hex_length v : String.length (twos_complement_hex v) = 64%nat.
Proof. unfold twos_complement_hex. by rewrite bytes_hex_length, int_to_bytes_big_length. Qed.

Lemma unsigned_big_to_bytes n u acc :
  fold_left (λ acc b, acc * 256 + b) (int_to_bytes_big n u) acc
  = acc * 256 ^ Z.of_nat n + u mod 256 ^ Z.of_nat n.
Proof.
  revert acc. induction n as [|n IH]; intros acc.
  - simpl. rewrite Z.mod_1_r. lia.
  - cbn [int_to_bytes_big fold_left]. rewrite IH.
    rewrite Nat2Z.inj_succ, Z.pow_succ_r by lia.
    rewrite (Z.mul_comm 256 (256 ^ Z.of_nat n)).
    rewrite (Z.rem_mul_r u (256 ^ Z.of_nat n) 256) by lia.
    lia.
Qed.

Lemma testbit7 b : 0 ≤ b < 256 → Z.testbit b 7 = (128 <=? b).
Proof.
  intros Hb. pose proof (Z.testbit_spec' b 7 ltac:(lia)) as H.
  change (2 ^ 7) with 128 in H.
  assert (Hq : 0 ≤ b / 128 < 2) by (split; [apply Z.div_pos; lia | apply Z.div_lt_upper_bound; lia]).
  destruct (Z.leb_spec 128 b) as [Hge|Hlt].
  - assert (b / 128 = 1) as Hd by (Z.to_euclidean_division_equations; lia).
    rewrite Hd in H. destruct (Z.testbit b 7); [done|discriminate H].
  - rewrite Z.div_small in H by lia. destruct (Z.testbit b 7); [discriminate H|done].
Qed.

(** [int.from_bytes] undoes the 32-byte two's-complement encoding. *)
Lemma int_from_bytes_twos_complement v :
  int256 v → int_from_bytes_big_signed (int_to_bytes_big 32 (v mod 2 ^ 256)) = v.
Proof.
  intros Hv. unfold int256 in Hv.
  set (u := v mod 2 ^ 256).
  assert (Hu : 0 ≤ u < 2 ^ 256) by (apply Z.mod_pos_bound; lia).
  assert (Hun : unsigned_big (int_to_bytes_big 32 u) = u).
  { unfold unsigned_big. rewrite unsigned_big_to_bytes.
    change (256 ^ Z.of_nat 32) with (2 ^ 256). rewrite Z.mod_small; lia. }
  change (int_to_bytes_big 32 u) with
    ((u / 256 ^ Z.of_nat 31) mod 256 :: int_to_bytes_big 31 u) in *.
  unfold int_from_bytes_big_signed. rewrite Hun.
  rewrite testbit7 by (apply Z.mod_pos_bound; lia).
  cbn [length]. rewrite int_to_bytes_big_length.
  change (2 ^ (8 * Z.of_nat 32)) with (2 ^ 256).
  change (256 ^ Z.of_nat 31) with (2 ^ 248).
  assert (Hq : 0 ≤ u / 2 ^ 248 < 256).
  { split; [apply Z.div_pos; lia | apply Z.div_lt_upper_bound; lia]. }
  rewrite (Z.mod_small _ 256) by done.
  destruct (Z.leb_spec 128 (u / 2 ^ 248)) as [Hge|Hlt].
  - assert (2 ^ 255 ≤ u).
    { pose proof (Z.mul_div_le u (2 ^ 248) ltac:(lia)). lia. }
    destruct (Z.lt_ge_cases v 0) as [Hneg|Hpos].
    + subst u. rewrite <- (Z.mod_unique_pos v (2 ^ 256) (-1) (v + 2 ^ 256)); lia.
    + subst u. rewrite Z.mod_small in *; lia.
  - assert (u < 2 ^ 255).
    { pose proof (Z.mod_pos_bound u (2 ^ 248) ltac:(lia)).
      pose proof (Z.div_mod u (2 ^ 248) ltac:(lia)). lia. }
    destruct (Z.lt_ge_cases v 0) as [Hneg|Hpos].
    + subst u. rewrite <- (Z.mod_unique_pos v (2 ^ 256) (-1) (v + 2 ^ 256)) in *; lia.
    + subst u. rewrite Z.mod_small; lia.
Qed.

Lemma list_ascii_app s1 s2 :
  list_ascii_of_string (s1 +:+ s2) = list_ascii_of_string s1 ++ list_ascii_of_string s2.
Proof. induction s1 as [|c s1 IH]; simpl; [done|]. by rewrite <- IH. Qed.

Lemma slice_app_l s1 s2 : String.length s1 = 64%nat → slice 0 64 (s1 +:+ s2) = s1.
Proof.
  intros Hlen. apply string_of_list_eq. unfold slice.
  rewrite list_ascii_substring, list_ascii_app, drop_0.
  apply take_app_length'. by rewrite list_ascii_length.
Qed.

Lemma slice_app_r s1 s2 :
  String.length s1 = 64%nat → String.length s2 = 64%nat → slice 64 128 (s1 +:+ s2) = s2.
Proof.
  intros Hlen1 Hlen2. apply string_of_list_eq. unfold slice.
  rewrite list_ascii_substring, list_ascii_app.
  rewrite drop_app_length' by (by rewrite list_ascii_length).
  apply take_ge. rewrite list_ascii_length. lia.
Qed.

Lemma strip_marker_0x s : strip_marker ("0x" +:+ s) = s.
Proof.
  apply string_of_list_eq. unfold strip_marker, startswith, slice_from.
  assert (String.prefix "0x" ("0x" +:+ s) = true) as -> by (by destruct s).
  rewrite list_ascii_substring. change ("0x" +:+ s) with (String "0" (String "x" s)).
  cbn [list_ascii_of_string String.length drop].
  apply take_ge. rewrite list_ascii_length. lia.
Qed.

Lemma strip_marker_hex v s : strip_marker (twos_complement_hex v +:+ s) = twos_complement_hex v +:+ s.
Proof.
  unfold strip_marker, startswith, twos_complement_hex.
  change (int_to_bytes_big 32 (v mod 2 ^ 256)) with
    ((v mod 2 ^ 256 / 256 ^ Z.of_nat 31) mod 256 :: int_to_bytes_big 31 (v mod 2 ^ 256)).
  set (b := (v mod 2 ^ 256 / 256 ^ Z.of_nat 31) mod 256).
  assert (Hb : 0 ≤ b < 256) by (apply Z.mod_pos_bound; lia).
  destruct (byte_nibbles b Hb) as (_ & Hlo & _).
  cbn [bytes_hex]. 
  change (String ?a (String ?c ?r) +:+ s) with (String a (String c (r +:+ s))).
  cbn [String.prefix].
  destruct (ascii_dec _ _); [|done].
  destruct (ascii_dec "x" (hex_char (Z.land b 15))) as [Heq|]; [|done].
  by destruct (hex_char_not_x _ Hlo).
Qed.

(** C2: the two 64-character big-endian two's-complement segments of a
    pair of signed 256-bit integers decode to that pair, with or without
    the marker in front; the extremes and zero are in the range. *)
Theorem decode_swap_log_roundtrip (amount0 amount1 : Z) :
  int256 amount0 → int256 amount1 →
  String.length (decode_to_hex amount0 amount1) = 128%nat ∧
  decode_swap_log (decode_to_hex amount0 amount1) = Ok (amount0, amount1) ∧
  decode_swap_log ("0x" +:+ decode_to_hex amount0 amount1) = Ok (amount0, amount1).
Proof.
  intros H0 H1.
  pose proof (twos_complement_hex_length amount0) as Hl0.
  pose proof (twos_complement_hex_length amount1) as Hl1.
  assert (Hseg : ∀ s, strip_marker s = decode_to_hex amount0 amount1 →
                      decode_swap_log s = Ok (amount0, amount1)).
  { intros s Hs. rewrite decode_swap_log_segments, Hs. unfold decode_to_hex.
    rewrite slice_app_l, slice_app_r by done.
    unfold twos_complement_hex.
    rewrite !bytes_fromhex_hex by apply int_to_bytes_big_range.
    unfold mbind, result_bind.
    by rewrite !int_from_bytes_twos_complement. }
  split; [|split].
  - rewrite <- list_ascii_length. unfold decode_to_hex.
    rewrite list_ascii_app, length_app, !list_ascii_length. lia.
  - apply Hseg. apply strip_marker_hex.
  - apply Hseg. apply strip_marker_0x.
Qed.

Lemma decode_swap_log_roundtrip_witness :
  decode_swap_log (decode_to_hex (- 2 ^ 255) (2 ^ 255 - 1)) = Ok (- 2 ^ 255, 2 ^ 255 - 1) ∧
  decode_swap_log (decode_to_hex 0 (-1)) = Ok (0, -1).
Proof.
  split.
  - apply (decode_swap_log_roundtrip (- 2 ^ 255) (2 ^ 255 - 1)); unfold int256; lia.
  - apply (decode_swap_log_roundtrip 0 (-1)); unfold int256; lia.
Defined.

Example decode_to_hex_ex :
  decode_to_hex (-1) 255 =
  "ffffffffffffffffffffffffffffffffffffffffffffffffffffffffffffffff00000000000000000000000000000000000000000000000000000000000000ff".
Proof. vm_compute. reflexivity. Qed.

End decoder.

(** * The classifier *)

Global Instance by_sender_timestamp_total : Total by_sender_timestamp.
Proof.
  intros r1 r2. unfold by_sender_timestamp.
  destruct (decide (sender r1 = sender r2)) as [Heq|Hne].
  - rewrite Heq. destruct (Z.le_ge_cases (block_timestamp r1) (block_timestamp r2));
      [left|right]; (split; [reflexivity|done]).
  - destruct (total String.le (sender r1) (sender r2)); [left|right]; (split; [done|congruence]).
Qed.

Global Instance by_sender_timestamp_trans : Transitive by_sender_timestamp.
Proof.
  intros r1 r2 r3 [Hs12 Ht12] [Hs23 Ht23]. split; [by etrans|].
  intros Heq. rewrite Heq in Hs12.
  assert (sender r2 = sender r3) as H23 by (by apply (anti_symm String.le)).
  assert (sender r1 = sender r2) as H12 by congruence.
  specialize (Ht12 H12). specialize (Ht23 H23). lia.
Qed.

Global Instance newest_first_total : Total newest_first.
Proof. intros r1 r2. unfold newest_first. lia. Qed.

Global Instance newest_first_trans : Transitive newest_first.
Proof. intros r1 r2 r3. unfold newest_first. lia. Qed.

Lemma elem_of_unique (x : string) l : x ∈ unique l ↔ x ∈ l.
Proof.
  induction l as [|y l IH]; simpl; [done|].
  rewrite !elem_of_cons, list_elem_of_filter, IH.
  destruct (decide (x = y)); tauto.
Qed.

Lemma close_from_Some p l : close_from (Some p) l = true ↔ close_pair (p :: l).
Proof.
  revert p. induction l as [|t l IH]; intros p.
  - simpl. split; [done|]. intros (i & t1 & t2 & H1 & H2 & _). by destruct i.
  - simpl. rewrite orb_true_iff, IH, Z.leb_le. split.
    + intros [Hle | (i & t1 & t2 & H1 & H2 & Hle)].
      * by exists 0%nat, p, t.
      * by exists (S i), t1, t2.
    + intros (i & t1 & t2 & H1 & H2 & Hle). destruct i as [|i].
      * left. simpl in H1, H2. congruence.
      * right. by exists i, t1, t2.
Qed.

Lemma close_from_None l : close_from None l = true ↔ close_pair l.
Proof.
  destruct l as [|t l]; simpl.
  - split; [done|]. intros (i & t1 & t2 & H1 & _). by destruct i.
  - apply close_from_Some.
Qed.

(** The senders the filter of line 93 keeps are those with two
    consecutive rows within the threshold, in frame order. *)
Lemma elem_of_bot_senders a last df :
  a ∈ bot_senders (zip df (groupby_diff last df))
  ↔ close_from (last !! a) (timestamps_of a df) = true.
Proof.
  unfold bot_senders. rewrite elem_of_unique. unfold timestamps_of.
  revert last. induction df as [|r df IH]; intros last.
  - simpl. by rewrite elem_of_nil.
  - cbn [groupby_diff zip zip_with]. rewrite !filter_cons. cbn [fst snd].
    specialize (IH (<[sender r := block_timestamp r]> last)).
    destruct (decide (sender r = a)) as [<-|Hne].
    + rewrite lookup_insert_eq in IH.
      rewrite fmap_cons. cbn [close_from]. rewrite orb_true_iff, <- IH.
      destruct (decide (within_threshold _ = true)) as [Hw|Hw].
      * rewrite fmap_cons, elem_of_cons. cbn [fst]. tauto.
      * tauto.
    + rewrite lookup_insert_ne in IH by done. rewrite <- IH.
      destruct (decide (within_threshold _ = true)) as [Hw|Hw]; [|done].
      rewrite fmap_cons, elem_of_cons. cbn [fst]. split; [|tauto].
      intros [Heq|Hin]; [congruence|done].
Qed.

Lemma timestamps_of_cons a (r : Swap) df :
  timestamps_of a (r :: df) =
    if decide (sender r = a) then block_timestamp r :: timestamps_of a df
    else timestamps_of a df.
Proof. unfold timestamps_of. rewrite filter_cons. by destruct (decide _). Qed.

Lemma elem_of_timestamps_of a t df :
  t ∈ timestamps_of a df ↔ ∃ r : Swap, r ∈ df ∧ sender r = a ∧ block_timestamp r = t.
Proof.
  unfold timestamps_of. rewrite list_elem_of_fmap. split.
  - intros (r & -> & Hr). apply list_elem_of_filter in Hr as [Hs Hin]. by exists r.
  - intros (r & Hin & Hs & <-). exists r. split; [done|]. by apply list_elem_of_filter.
Qed.

Lemma timestamps_of_Permutation a df1 df2 :
  df1 ≡ₚ df2 → timestamps_of a df1 ≡ₚ timestamps_of a df2.
Proof. intros H. unfold timestamps_of. by rewrite H. Qed.

(** In a frame sorted by sender and timestamp the timestamps of each
    sender ascend. *)
Lemma timestamps_of_sorted a df :
  StronglySorted by_sender_timestamp df → StronglySorted Z.le (timestamps_of a df).
Proof.
  induction 1 as [|r df Hsorted IH Hall].
  - constructor.
  - rewrite timestamps_of_cons. destruct (decide (sender r = a)) as [Ha|Hne]; [|done].
    constructor; [done|]. apply Forall_forall. intros t Ht.
    apply elem_of_timestamps_of in Ht as (r' & Hin & Hs & <-).
    rewrite Forall_forall in Hall. destruct (Hall r' Hin) as [_ Hle].
    apply Hle. congruence.
Qed.

(** The timestamps of an actor, as the sorted frame has them, are the
    ascending arrangement of the actor's timestamps. *)
Lemma timestamps_of_merge_sort a df l :
  l ≡ₚ timestamps_of a df → Sorted Z.le l →
  timestamps_of a (merge_sort by_sender_timestamp df) = l.
Proof.
  intros Hperm Hsorted. apply (Sorted_unique Z.le).
  - apply StronglySorted_Sorted, timestamps_of_sorted, StronglySorted_merge_sort; apply _.
  - done.
  - rewrite Hperm. apply timestamps_of_Permutation, merge_sort_Permutation.
Qed.

Lemma length_groupby_diff last df : length (groupby_diff last df) = length df.
Proof. revert last. induction df as [|r df IH]; intros last; simpl; [done|]. by rewrite IH. Qed.

Lemma length_classify df : length (classify df) = length df.
Proof.
  unfold classify. rewrite length_fmap, length_zip, length_groupby_diff, Nat.min_id.
  apply Permutation_length, merge_sort_Permutation.
Qed.

(** The rows of the classified frame are those of the sorted frame, and
    the flag of each is the membership of its sender in [bot_senders]. *)
Lemma classify_is_bot df (r : Classified) :
  r ∈ classify df →
  is_bot r = true ↔ close_pair (timestamps_of (sender r) (merge_sort by_sender_timestamp df)).
Proof.
  unfold classify. intros Hin. apply list_elem_of_fmap in Hin as ([r0 d] & -> & _).
  cbn [is_bot swap fst]. rewrite bool_decide_eq_true, elem_of_bot_senders, lookup_empty.
  apply close_from_None.
Qed.

Lemma swap_classify df :
  (λ r : Classified, swap r) <$> classify df = merge_sort by_sender_timestamp df.
Proof.
  unfold classify. rewrite <- list_fmap_compose.
  rewrite <- (fst_zip (merge_sort by_sender_timestamp df)
                (groupby_diff ∅ (merge_sort by_sender_timestamp df))) at 3
    by (by rewrite length_groupby_diff).
  by apply list_fmap_ext.
Qed.

Lemma close_pair_not_all_gaps l : close_pair l → ¬ all_gaps_exceed l.
Proof. intros (i & t1 & t2 & H1 & H2 & Hle) Hall. specialize (Hall i t1 t2 H1 H2). lia. Qed.

Lemma display_set_subseteq df : display_set df ⊆ classify df.
Proof.
  unfold display_set, head. intros r Hin. apply subseteq_take in Hin.
  by rewrite merge_sort_Permutation in Hin.
Qed.

(** C3: take any actor and the ascending arrangement [l] of the
    timestamps of the actor's events. In the classified frame the actor's
    events stand in that order; when two consecutive timestamps of [l]
    are no more than the threshold (five minutes) apart every event of
    the actor is flagged, in the classified frame and in the feed, and
    when every consecutive delta exceeds the threshold none is. *)
Theorem classify_bot_iff_close_pair (df : list Swap) (a : string) (l : list Z) :
  l ≡ₚ timestamps_of a df → Sorted Z.le l →
  threshold = 300000000000 ∧
  timestamps_of a ((λ r : Classified, swap r) <$> classify df) = l ∧
  (close_pair l →
     ∀ r : Classified, r ∈ classify df ∨ r ∈ display_set df → sender r = a → is_bot r = true) ∧
  (all_gaps_exceed l →
     ∀ r : Classified, r ∈ classify df ∨ r ∈ display_set df → sender r = a → is_bot r = false).
Proof.
  intros Hperm Hsorted.
  pose proof (timestamps_of_merge_sort a df l Hperm Hsorted) as Hl.
  assert (Hin : ∀ r : Classified, r ∈ classify df ∨ r ∈ display_set df → r ∈ classify df).
  { intros r [H|H]; [done|by apply display_set_subseteq]. }
  split; [reflexivity|]. split; [by rewrite swap_classify|]. split.
  - intros Hclose r Hr <-. apply (classify_is_bot df r (Hin r Hr)). by rewrite Hl.
  - intros Hgaps r Hr <-. apply not_true_is_false. intros Hbot.
    apply (classify_is_bot df r (Hin r Hr)) in Hbot. rewrite Hl in Hbot.
    by apply close_pair_not_all_gaps in Hbot.
Qed.

Lemma classify_bot_iff_close_pair_witness :
  (∀ r : Classified, r ∈ classify sample_frame ∨ r ∈ display_set sample_frame →
                     sender r = "0xA" → is_bot r = true) ∧
  (∀ r : Classified, r ∈ classify sample_frame ∨ r ∈ display_set sample_frame →
                     sender r = "0xB" → is_bot r = false).
Proof.
  split.
  - apply (classify_bot_iff_close_pair sample_frame "0xA" [600 * minute; 604 * minute]).
    + vm_compute. apply Permutation_swap.
    + repeat constructor. vm_compute. discriminate.
    + exists 0%nat, (600 * minute), (604 * minute). repeat split. vm_compute. discriminate.
  - apply (classify_bot_iff_close_pair sample_frame "0xB" [590 * minute; 601 * minute]).
    + vm_compute. apply Permutation_swap.
    + repeat constructor. vm_compute. discriminate.
    + intros [|[|i]] t1 t2 H1 H2; simplify_eq/=. vm_compute. reflexivity.
Defined.

(** C6: an actor with exactly one event among the fetched events is not
    flagged, whatever the timestamp and whatever the other actors do. *)
Theorem single_event_not_bot (df : list Swap) (a : string) :
  length (filter (λ r : Swap, sender r = a) df) = 1%nat →
  ∀ r : Classified, r ∈ classify df ∨ r ∈ display_set df → sender r = a → is_bot r = false.
Proof.
  intros Hone r Hr <-. apply not_true_is_false. intros Hbot.
  assert (Hin : r ∈ classify df) by (destruct Hr; [done|by apply display_set_subseteq]).
  apply (classify_is_bot df r Hin) in Hbot as (i & t1 & t2 & H1 & H2 & _).
  apply lookup_lt_Some in H2.
  rewrite (Permutation_length
             (timestamps_of_Permutation (sender r) _ _ (merge_sort_Permutation _ df))) in H2.
  unfold timestamps_of in H2. rewrite length_fmap, Hone in H2. lia.
Qed.

Lemma single_event_not_bot_witness :
  Forall (λ r : Classified, sender r = "0xC" → is_bot r = false) (classify sample_frame) ∧
  Forall (λ r : Classified, sender r = "0xC" → is_bot r = false) (display_set sample_frame).
Proof.
  split; apply Forall_forall; intros r Hr;
    apply (single_event_not_bot sample_frame "0xC"); (reflexivity || tauto).
Defined.

(** * The run *)

Lemma decode_rows_decodable rows :
  Forall decodable rows → ∃ df, decode_rows rows = Ok df ∧ (λ r : Swap, raw r) <$> df = rows.
Proof.
  induction 1 as [|r rows [[a0 a1] Hr] _ (df & Hdf & Hraw)].
  - by exists [].
  - exists ({| raw := r; amount0 := a0; amount1 := a1 |} :: df). split.
    + cbn [decode_rows]. unfold decode_row. rewrite Hr. cbn. by rewrite Hdf.
    + by rewrite fmap_cons, Hraw.
Qed.

Lemma decode_rows_length rows df : decode_rows rows = Ok df → length df = length rows.
Proof.
  revert df. induction rows as [|r rows IH]; intros df; cbn [decode_rows].
  - by intros [= <-].
  - destruct (decode_row r) as [s|e]; cbn; [|done].
    destruct (decode_rows rows) as [rest|e]; cbn; [|done].
    intros [= <-]. cbn. by rewrite (IH rest).
Qed.

(** A payload the decoder refuses makes the decoding of the frame raise. *)
Lemma decode_rows_undecodable rows :
  ¬ Forall decodable rows → decode_rows rows = Raise ValueError.
Proof.
  induction rows as [|r rows IH]; intros Hnot.
  - by destruct Hnot.
  - cbn [decode_rows]. unfold decode_row.
    destruct (decode_swap_log (data r)) as [[a0 a1]|e] eqn:Hr; cbn.
    + rewrite IH; [done|]. intros Hall. apply Hnot. constructor; [by eexists|done].
    + rewrite decode_swap_log_segments in Hr.
      destruct (bytes_fromhex (slice 0 64 _)) as [b0|e0] eqn:H0; cbn in Hr.
      * destruct (bytes_fromhex (slice 64 128 _)) as [b1|e1] eqn:H1; cbn in Hr; [done|].
        injection Hr as <-. by rewrite (bytes_fromhex_raises _ _ H1).
      * injection Hr as <-. by rewrite (bytes_fromhex_raises _ _ H0).
Qed.

Lemma length_display_set df : length (display_set df) = (20 `min` length df)%nat.
Proof.
  unfold display_set, head.
  by rewrite length_take, (Permutation_length (merge_sort_Permutation _ _)), length_classify.
Qed.

Lemma StronglySorted_take {A} (R : relation A) n (l : list A) :
  StronglySorted R l → StronglySorted R (take n l).
Proof.
  intros H. rewrite <- (take_drop n l) in H. by apply StronglySorted_app_1_l in H.
Qed.

(** The feed is ordered newest first. *)
Lemma display_set_sorted df : StronglySorted newest_first (display_set df).
Proof. apply StronglySorted_take, StronglySorted_merge_sort; apply _. Qed.

(** The loop: one narrative and one call per row, in order. *)
Lemma fold_narrate_row model rows st :
  fold_left (narrate_row model) rows st =
    {| ai_narratives :=
         ai_narratives st
         ++ imap (λ i row, narrative_of (model (length (calls st) + i)%nat (prompt row))) rows;
       calls := calls st ++ (prompt <$> rows) |}.
Proof.
  revert st. induction rows as [|row rows IH]; intros st.
  - simpl. rewrite !app_nil_r. by destruct st.
  - cbn [fold_left]. rewrite IH. unfold narrate_row at 1 2 3. cbn [ai_narratives calls].
    rewrite imap_cons, fmap_cons, <- !app_assoc. cbn [app].
    rewrite Nat.add_0_r. f_equal. f_equal. f_equal.
    apply imap_ext. intros i r _. cbn. rewrite length_app. cbn.
    by replace (length (calls st) + 1 + i)%nat with (length (calls st) + S i)%nat by lia.
Qed.

Lemma imap_skipped {A} (f : nat → A → string) (l : list A) :
  (∀ i x, f i x = skipped) → imap f l = replicate (length l) skipped.
Proof.
  revert f. induction l as [|x l IH]; intros f Hf; [done|].
  rewrite imap_cons, Hf. cbn. f_equal. apply IH. intros i y. apply Hf.
Qed.

Lemma annotate_spec model df :
  annotate model df =
    {| ai_narratives := imap (narrative_at model) df; calls := prompt <$> head 10 df |}.
Proof.
  unfold annotate, skip_remaining, head. rewrite fold_narrate_row. cbn [ai_narratives calls app].
  f_equal. rewrite <- (take_drop 10 df) at 3. rewrite imap_app. f_equal.
  - apply imap_ext. intros i row Hi. apply lookup_lt_Some in Hi.
    rewrite length_take in Hi. unfold narrative_at. rewrite decide_True by lia. done.
  - replace (Z.to_nat (Z.of_nat (length df) - 10)) with (length (drop 10 df))
      by (rewrite length_drop; lia).
    destruct (decide (length df ≤ 10)%nat) as [Hle|Hgt].
    + rewrite drop_ge by done. done.
    + symmetry. apply imap_skipped. intros i row. unfold narrative_at.
      rewrite length_take. rewrite decide_False by lia. done.
Qed.

Lemma zip_with_imap {A B C} (g : A → B → C) (f : nat → A → B) (l : list A) :
  zip_with g l (imap f l) = imap (λ i x, g x (f i x)) l.
Proof.
  revert f. induction l as [|x l IH]; intros f; [done|].
  rewrite !imap_cons. cbn. f_equal. apply IH.
Qed.

Lemma get_crypto_data_decoded w rows df :
  startup w = Ok () → query w = Some rows → rows ≠ [] →
  decode_rows rows = Ok df →
  get_crypto_data w =
    {| returned := Ok (annotated (model w) (display_set df));
       service_calls := prompt <$> head 10 (display_set df) |}.
Proof.
  intros Hconf Hquery Hne Hdec. unfold get_crypto_data.
  rewrite Hconf, Hquery. destruct rows as [|r rows]; [done|]. rewrite Hdec.
  rewrite annotate_spec. cbn [ai_narratives calls]. f_equal.
  unfold assign_column. rewrite decide_True by apply length_imap.
  f_equal. apply zip_with_imap.
Qed.

Lemma get_crypto_data_undecodable w rows :
  startup w = Ok () → query w = Some rows → ¬ Forall decodable rows →
  get_crypto_data w = {| returned := Raise ValueError; service_calls := [] |}.
Proof.
  intros Hconf Hquery Hnot. unfold get_crypto_data. rewrite Hconf, Hquery.
  destruct rows as [|r rows]; [by destruct Hnot|].
  by rewrite (decode_rows_undecodable _ Hnot).
Qed.

Lemma event_annotated model df : (λ a : Annotated, event a) <$> annotated model df = df.
Proof.
  unfold annotated. apply list_eq. intros i.
  rewrite list_lookup_fmap, list_lookup_imap. by destruct (df !! i).
Qed.

Lemma length_annotated model df : length (annotated model df) = length df.
Proof. apply length_imap. Qed.

Lemma lookup_annotated model df i a :
  annotated model df !! i = Some a ↔
  ∃ row, df !! i = Some row ∧ a = {| event := row; AI_Narrative := narrative_at model i row |}.
Proof.
  unfold annotated. rewrite list_lookup_imap. destruct (df !! i) as [row|]; cbn.
  - split; [intros [= <-]; by exists row | intros (row' & [= <-] & ->); done].
  - split; [done | intros (row' & Hrow & _); done].
Qed.

Lemma StronglySorted_lookup {A} (R : relation A) (l : list A) i j x y :
  StronglySorted R l → (i < j)%nat → l !! i = Some x → l !! j = Some y → R x y.
Proof.
  intros Hsorted. revert i j. induction Hsorted as [|z l _ IH Hall]; intros i j Hij Hi Hj.
  - done.
  - destruct j as [|j]; [lia|]. destruct i as [|i]; cbn in Hi, Hj.
    + injection Hi as ->. rewrite Forall_forall in Hall.
      apply Hall. by eapply list_elem_of_lookup_2.
    + apply (IH i j); [lia|done..].
Qed.

(** C7: once the run has reached the query, a query that raises and a
    query without rows both end the run with the empty frame, no
    exception and no call to the narrative service. *)
Theorem empty_source_empty_result (w : World) :
  startup w = Ok () → query w = None ∨ query w = Some [] →
  returned (get_crypto_data w) = Ok [] ∧ service_calls (get_crypto_data w) = [].
Proof.
  intros Hconf Hquery. unfold get_crypto_data. rewrite Hconf.
  by destruct Hquery as [-> | ->].
Qed.

Lemma empty_source_empty_result_witness :
  (returned (get_crypto_data (sample_world None)) = Ok [] ∧
   service_calls (get_crypto_data (sample_world None)) = []) ∧
  (returned (get_crypto_data (sample_world (Some []))) = Ok [] ∧
   service_calls (get_crypto_data (sample_world (Some []))) = []).
Proof.
  split.
  - apply (empty_source_empty_result (sample_world None)); [reflexivity|by left].
  - apply (empty_source_empty_result (sample_world (Some []))); [reflexivity|by right].
Defined.

(** What a run over decodable rows returns, in one place. *)
Lemma get_crypto_data_returns w rows :
  startup w = Ok () → query w = Some rows → rows ≠ [] → Forall decodable rows →
  ∃ df, decode_rows rows = Ok df ∧ length df = length rows ∧
        returned (get_crypto_data w) = Ok (annotated (model w) (display_set df)) ∧
        service_calls (get_crypto_data w) = prompt <$> head 10 (display_set df).
Proof.
  intros Hconf Hquery Hne Hall.
  destruct (decode_rows_decodable rows Hall) as (df & Hdf & _).
  exists df. rewrite (get_crypto_data_decoded w rows df) by done.
  split; [done|]. split; [by apply decode_rows_length|done].
Qed.

(** The returned frame and the calls, position by position: a row at a
    position below ten carries what the [try] statement made of the call
    of that position; a row after them carries the placeholder, and no
    call has its position. *)
Lemma get_crypto_data_by_position w rows :
  startup w = Ok () → query w = Some rows → rows ≠ [] → Forall decodable rows →
  ∃ out, returned (get_crypto_data w) = Ok out ∧
    length out = (20 `min` length rows)%nat ∧
    length (service_calls (get_crypto_data w)) = (10 `min` length out)%nat ∧
    (∀ i j (a b : Annotated), (i < j)%nat → out !! i = Some a → out !! j = Some b →
                block_timestamp b ≤ block_timestamp a) ∧
    (∀ i (a : Annotated), (i < 10)%nat → out !! i = Some a →
       ∃ p, service_calls (get_crypto_data w) !! i = Some p ∧
            AI_Narrative a = narrative_of (model w i p)) ∧
    (∀ i (a : Annotated), (10 ≤ i)%nat → out !! i = Some a →
       AI_Narrative a = skipped ∧ service_calls (get_crypto_data w) !! i = None).
Proof.
  intros Hconf Hquery Hne Hall.
  destruct (get_crypto_data_returns w rows Hconf Hquery Hne Hall)
    as (df & Hdf & Hldf & Hret & Hcalls).
  exists (annotated (model w) (display_set df)). split; [done|].
  rewrite Hcalls, length_annotated, length_display_set, Hldf. unfold head.
  split; [done|]. split; [|split; [|split]].
  - rewrite length_fmap, length_take, length_display_set, Hldf. done.
  - intros i j a b Hij Ha Hb.
    apply lookup_annotated in Ha as (ra & Hra & ->). apply lookup_annotated in Hb as (rb & Hrb & ->).
    apply (StronglySorted_lookup newest_first _ i j ra rb (display_set_sorted df) Hij Hra Hrb).
  - intros i a Hi Ha. apply lookup_annotated in Ha as (row & Hrow & ->).
    exists (prompt row). split.
    + by rewrite list_lookup_fmap, lookup_take_lt, Hrow.
    + cbn. unfold narrative_at. by rewrite decide_True.
  - intros i a Hi Ha. apply lookup_annotated in Ha as (row & _ & ->). split.
    + cbn. unfold narrative_at. rewrite decide_False by lia. done.
    + apply lookup_ge_None. rewrite length_fmap, length_take. lia.
Qed.

(** The [try] statement of lines 118-125, outcome by outcome. *)
Lemma narrative_of_cases (r : response) (s : string) :
  s = narrative_of r →
  (∀ t, r = Text t → s = strip t) ∧
  (r = RaiseTooManyRequests ∨ r = RaiseNotFound →
     s = "analysis unavailable (api limit). [neutral]") ∧
  (r = RaiseException → s = "analysis failed. [neutral]").
Proof.
  intros ->. split; [|split].
  - by intros t ->.
  - by intros [-> | ->].
  - by intros ->.
Qed.



(** C5, as stated, fails: [NotFound] is no rate-limit or quota failure,
    yet the row whose call raises it carries "analysis unavailable", not
    "analysis failed". Here it is the eighth call of a run over twelve
    rows. *)
Lemma not_found_reported_unavailable :
  (∃ out (a : Annotated) (p : string),
     returned (get_crypto_data (sample_world (Some (sample_rows 12)))) = Ok out ∧
     out !! 7%nat = Some a ∧
     service_calls (get_crypto_data (sample_world (Some (sample_rows 12)))) !! 7%nat = Some p ∧
     model (sample_world (Some (sample_rows 12))) 7%nat p = RaiseNotFound ∧
     other_failure (model (sample_world (Some (sample_rows 12))) 7%nat p) ∧
     AI_Narrative a = "analysis unavailable (api limit). [neutral]" ∧
     AI_Narrative a ≠ "analysis failed. [neutral]") ∧
  ¬ (∀ (w : World) out (i : nat) (a : Annotated) (p : string),
       returned (get_crypto_data w) = Ok out → out !! i = Some a →
       service_calls (get_crypto_data w) !! i = Some p →
       (rate_limit_failure (model w i p) →
          AI_Narrative a = "analysis unavailable (api limit). [neutral]") ∧
       (other_failure (model w i p) →
          AI_Narrative a = "analysis failed. [neutral]")).
Proof.
  assert (Hall : Forall decodable (sample_rows 12))
    by (apply (bool_decide_unpack _); vm_compute; exact I).
  destruct (get_crypto_data_by_position (sample_world (Some (sample_rows 12))) (sample_rows 12))
    as (out & Hout & Hlout & _ & _ & Hfirst & _); [reflexivity | reflexivity | discriminate | done |].
  destruct (lookup_lt_is_Some_2 out 7) as [a Ha]; [rewrite Hlout; vm_compute; lia|].
  destruct (Hfirst 7%nat a) as (p & Hp & Hnarr); [lia | done |].
  assert (Hother : other_failure (model (sample_world (Some (sample_rows 12))) 7%nat p)).
  { split; [by intros t | by intros Hrate]. }
  change (AI_Narrative a = "analysis unavailable (api limit). [neutral]") in Hnarr.
  split.
  - exists out, a, p. repeat split; try done. by rewrite Hnarr.
  - intros Hclaim.
    destruct (Hclaim (sample_world (Some (sample_rows 12))) out 7%nat a p Hout Ha Hp)
      as [_ Hfailed].
    specialize (Hfailed Hother). by rewrite Hnarr in Hfailed.
Qed.

(** C5, amended: whatever the narrative service does, a run over
    decodable rows returns the whole feed, and every row among the first
    ten has the call of its position. A row whose call raises
    [TooManyRequests] or [NotFound], the two exceptions of the first
    handler, carries the "analysis unavailable" narrative; one whose call
    raises any other exception carries "analysis failed"; one whose call
    answers carries the stripped answer. *)
Theorem service_failure_is_local (w : World) (rows : list RawRow) :
  startup w = Ok () → query w = Some rows → rows ≠ [] → Forall decodable rows →
  ∃ out,
    returned (get_crypto_data w) = Ok out ∧
    length out = (20 `min` length rows)%nat ∧
    length (service_calls (get_crypto_data w)) = (10 `min` length out)%nat ∧
    ∀ i (a : Annotated), (i < 10)%nat → out !! i = Some a →
      ∃ p, service_calls (get_crypto_data w) !! i = Some p ∧
        (model w i p = RaiseTooManyRequests ∨ model w i p = RaiseNotFound →
           AI_Narrative a = "analysis unavailable (api limit). [neutral]") ∧
        (model w i p = RaiseException →
           AI_Narrative a = "analysis failed. [neutral]") ∧
        (∀ t, model w i p = Text t → AI_Narrative a = strip t).
Proof.
  intros Hconf Hquery Hne Hall.
  destruct (get_crypto_data_by_position w rows Hconf Hquery Hne Hall)
    as (out & Hout & Hlout & Hlcalls & _ & Hfirst & _).
  exists out. split; [done|]. split; [done|]. split; [done|].
  intros i a Hi Ha. destruct (Hfirst i a Hi Ha) as (p & Hp & Hnarr).
  exists p. split; [done|].
  destruct (narrative_of_cases _ _ Hnarr) as (Htext & Hlimit & Hfailed). done.
Qed.

Lemma service_failure_is_local_witness :
  ∃ out,
    returned (get_crypto_data (sample_world (Some (sample_rows 12)))) = Ok out ∧
    length out = (20 `min` length (sample_rows 12))%nat ∧
    length (service_calls (get_crypto_data (sample_world (Some (sample_rows 12)))))
      = (10 `min` length out)%nat ∧
    ∀ i (a : Annotated), (i < 10)%nat → out !! i = Some a →
      ∃ p, service_calls (get_crypto_data (sample_world (Some (sample_rows 12)))) !! i = Some p ∧
        (sample_model i p = RaiseTooManyRequests ∨ sample_model i p = RaiseNotFound →
           AI_Narrative a = "analysis unavailable (api limit). [neutral]") ∧
        (sample_model i p = RaiseException →
           AI_Narrative a = "analysis failed. [neutral]") ∧
        (∀ t, sample_model i p = Text t → AI_Narrative a = strip t).
Proof.
  apply (service_failure_is_local (sample_world (Some (sample_rows 12))) (sample_rows 12));
    [reflexivity | reflexivity | discriminate |].
  apply (bool_decide_unpack _). vm_compute. exact I.
Defined.





(** * More on the decoder *)

Lemma bytes_fromhex_bytes (s : string) (bs : list Z) :
  bytes_fromhex s = Ok bs →
  Forall (λ b, 0 ≤ b < 256) bs ∧ (2 * length bs ≤ String.length s)%nat.
Proof.
  assert (Hle : (String.length s ≤ String.length s)%nat) by lia.
  revert Hle. generalize (String.length s) at 2. intros n.
  revert s bs. induction n as [|n IH]; intros s bs Hle.
  { destruct s; simpl in *; [|lia]. intros [= <-]. split; [constructor|simpl; lia]. }
  destruct s as [|c0 s']; simpl in *.
  { intros [= <-]. split; [constructor|simpl; lia]. }
  destruct (Py_ISSPACE c0).
  { intros H. destruct (IH s' bs) as [? ?]; [lia|done|]. split; [done|lia]. }
  destruct (hex_digit_value c0) as [top|] eqn:Htop; [|done].
  destruct s' as [|d s'']; [done|].
  destruct (hex_digit_value d) as [bot|] eqn:Hbot; [|done].
  destruct (bytes_fromhex s'') as [bs'|e] eqn:Hrec; cbn; [|done].
  intros [= <-]. simpl in Hle. destruct (IH s'' bs') as [Hall Hlen]; [lia|done|].
  split; [|simpl; lia]. constructor; [|done].
  assert (0 ≤ top < 16 ∧ 0 ≤ bot < 16) as [Ht Hb].
  { clear -Htop Hbot. split.
    - destruct c0 as [[] [] [] [] [] [] [] []]; vm_compute in Htop; inversion Htop; lia.
    - destruct d as [[] [] [] [] [] [] [] []]; vm_compute in Hbot; inversion Hbot; lia. }
  rewrite Z.shiftl_mul_pow2 by lia. lia.
Qed.

Lemma fold_unsigned_big (bs : list Z) (acc : Z) :
  Forall (λ b, 0 ≤ b < 256) bs →
  ∃ r, 0 ≤ r < 256 ^ Z.of_nat (length bs) ∧
       fold_left (λ acc b, acc * 256 + b) bs acc = acc * 256 ^ Z.of_nat (length bs) + r.
Proof.
  intros Hall. revert acc. induction Hall as [|b bs Hb _ IH]; intros acc.
  - exists 0. simpl. lia.
  - destruct (IH (acc * 256 + b)) as (r & Hr & Heq).
    exists (b * 256 ^ Z.of_nat (length bs) + r).
    cbn [fold_left length]. rewrite Heq, Nat2Z.inj_succ, Z.pow_succ_r by lia.
    split; [nia|lia].
Qed.

(** The value of [n] bytes is in the signed range of [n] bytes. *)
Lemma int_from_bytes_big_signed_range (bs : list Z) :
  Forall (λ b, 0 ≤ b < 256) bs → bs ≠ [] →
  int_range (length bs) (int_from_bytes_big_signed bs).
Proof.
  intros Hall Hne. destruct bs as [|b bs]; [done|]. clear Hne.
  apply Forall_cons in Hall as [Hb Hall]. unfold int_range, int_from_bytes_big_signed.
  rewrite testbit7 by done. unfold unsigned_big. cbn [fold_left length].
  destruct (fold_unsigned_big bs (0 * 256 + b) Hall) as (r & Hr & ->).
  set (m := Z.of_nat (length bs)) in *.
  assert (Hm : 0 ≤ m) by (unfold m; lia).
  replace (8 * Z.of_nat (S (length bs))) with (8 * m + 8) by (unfold m; lia).
  replace (8 * m + 8 - 1) with (8 * m + 7) by lia.
  rewrite !Z.pow_add_r by lia. rewrite (Z.pow_mul_r 2 8 m) by lia.
  change (2 ^ 8) with 256. change (2 ^ 7) with 128.
  assert (0 < 256 ^ m) by (apply Z.pow_pos_nonneg; lia).
  destruct (Z.leb_spec 128 b); nia.
Qed.

Lemma int_range_int256 (n : nat) (v : Z) : (n ≤ 32)%nat → int_range n v → int256 v.
Proof.
  unfold int_range, int256. intros Hn Hv.
  destruct n as [|n].
  - simpl in Hv. change (2 ^ (-1)) with 0 in Hv. lia.
  - assert (2 ^ (8 * Z.of_nat (S n) - 1) ≤ 2 ^ 255) by (apply Z.pow_le_mono_r; lia).
    lia.
Qed.

Lemma segment_value_int256 (seg : string) (bs : list Z) :
  (String.length seg ≤ 64)%nat → bytes_fromhex seg = Ok bs →
  int256 (int_from_bytes_big_signed bs).
Proof.
  intros Hlen Hbs. apply bytes_fromhex_bytes in Hbs as [Hall Hl].
  destruct bs as [|b bs]; [unfold int256; simpl; lia|].
  apply (int_range_int256 (length (b :: bs))); [lia|].
  by apply int_from_bytes_big_signed_range.
Qed.

(** X1: whatever the payload, the amounts of a successful decoding are
    signed 256-bit integers: each segment has at most 64 characters. *)
Theorem decode_swap_log_int256 (s : string) (amount0 amount1 : Z) :
  decode_swap_log s = Ok (amount0, amount1) → int256 amount0 ∧ int256 amount1.
Proof.
  rewrite decode_swap_log_segments. intros H.
  destruct (bytes_fromhex (slice 0 64 _)) as [b0|] eqn:H0; [|done].
  destruct (bytes_fromhex (slice 64 128 _)) as [b1|] eqn:H1; [|done].
  cbn in H. injection H as <- <-. split.
  - apply (segment_value_int256 _ _ ltac:(rewrite segment0_length; lia) H0).
  - apply (segment_value_int256 _ _ ltac:(rewrite segment1_length; lia) H1).
Qed.

Lemma decode_swap_log_int256_witness :
  int256 (-1) ∧ int256 0.
Proof. apply (decode_swap_log_int256 "0xff"). reflexivity. Defined.

Lemma startswith_app (s t : string) :
  (2 ≤ String.length s)%nat → startswith (s +:+ t) "0x" = startswith s "0x".
Proof.
  destruct s as [|c [|d s]]; intros Hlen; simpl in Hlen; [lia..|].
  change (String c (String d s) +:+ t) with (String c (String d (s +:+ t))).
  unfold startswith. cbn [String.prefix].
  destruct (ascii_dec _ c); [|done]. destruct (ascii_dec _ d); [|done].
  assert (Hempty : ∀ u, String.prefix "" u = true) by (by intros []).
  by rewrite !Hempty.
Qed.

Lemma string_length_app (s t : string) :
  String.length (s +:+ t) = (String.length s + String.length t)%nat.
Proof. by rewrite <- !list_ascii_length, list_ascii_app, length_app. Qed.

Lemma slice_from_app (s t : string) :
  (2 ≤ String.length s)%nat → slice_from 2 (s +:+ t) = slice_from 2 s +:+ t.
Proof.
  intros Hlen. apply string_of_list_eq. unfold slice_from.
  rewrite list_ascii_app, !list_ascii_substring, list_ascii_app, string_length_app.
  rewrite (take_ge (drop 2 (list_ascii_of_string s)))
    by (rewrite length_drop, list_ascii_length; lia).
  rewrite take_ge by (rewrite length_drop, length_app, !list_ascii_length; lia).
  apply drop_app_le. rewrite list_ascii_length. lia.
Qed.

Lemma startswith_length (s : string) : startswith s "0x" = true → (2 ≤ String.length s)%nat.
Proof.
  destruct s as [|c [|d s]]; [done| |simpl; intros; lia].
  unfold startswith. cbn [String.prefix]. by destruct (ascii_dec _ c).
Qed.

Lemma slice_from_length (s : string) : String.length (slice_from 2 s) = (String.length s - 2)%nat.
Proof. unfold slice_from. rewrite string_length_substring. lia. Qed.

Lemma strip_marker_app (s t : string) :
  (2 ≤ String.length (strip_marker s))%nat →
  strip_marker (s +:+ t) = strip_marker s +:+ t.
Proof.
  unfold strip_marker. intros Hlen.
  destruct (startswith s "0x") eqn:Hs.
  - pose proof (startswith_length s Hs). by rewrite startswith_app, Hs, slice_from_app.
  - by rewrite startswith_app, Hs.
Qed.

Lemma slice_app_long (p t : string) :
  (128 ≤ String.length p)%nat →
  slice 0 64 (p +:+ t) = slice 0 64 p ∧ slice 64 128 (p +:+ t) = slice 64 128 p.
Proof.
  intros Hlen. unfold slice. split; apply string_of_list_eq;
    rewrite !list_ascii_substring, list_ascii_app.
  - rewrite !drop_0. apply take_app_le. rewrite list_ascii_length. lia.
  - rewrite drop_app_le by (rewrite list_ascii_length; lia).
    apply take_app_le. rewrite length_drop, list_ascii_length. lia.
Qed.

(** X2: the decoder reads the first 128 characters after the marker and
    nothing else: whatever follows them, the other fields of the log or
    characters that are no digits, never changes the result. *)
Theorem decode_swap_log_ignores_tail (s t : string) :
  (128 ≤ String.length (strip_marker s))%nat →
  decode_swap_log (s +:+ t) = decode_swap_log s.
Proof.
  intros Hlen. rewrite !decode_swap_log_segments, strip_marker_app by lia.
  destruct (slice_app_long (strip_marker s) t Hlen) as [-> ->]. done.
Qed.

Lemma decode_swap_log_ignores_tail_witness :
  decode_swap_log (decode_to_hex 5 (-7) +:+ "zz not hexadecimal") = decode_swap_log (decode_to_hex 5 (-7)).
Proof. apply decode_swap_log_ignores_tail. vm_compute. lia. Defined.

Lemma bytes_fromhex_even (s : string) :
  hex_only s → Nat.Even (String.length s) → ∃ bs, bytes_fromhex s = Ok bs.
Proof.
  intros Hhex [k Hk]. revert s Hhex Hk.
  induction k as [|k IH]; intros s Hhex Hk.
  - destruct s; simpl in Hk; [|lia]. by exists [].
  - destruct s as [|c [|d s'']]; simpl in Hk; try lia.
    apply Forall_cons in Hhex as [Hc Hhex]. apply Forall_cons in Hhex as [Hd Hhex].
    destruct (IH s'' Hhex ltac:(lia)) as [bs Hbs].
    simpl. rewrite (hex_digit_not_space c Hc).
    destruct Hc as [v ->], Hd as [v' ->]. rewrite Hbs. by eexists.
Qed.

(** X3: on a payload of hexadecimal digits only the decoder fails in one
    case and no other: fewer than 128 digits after the marker, in odd
    number. *)
Theorem decode_swap_log_hex_only (s : string) :
  hex_only (strip_marker s) →
  raises (decode_swap_log s) ↔
    (String.length (strip_marker s) < 128)%nat ∧ Nat.Odd (String.length (strip_marker s)).
Proof.
  intros Hhex. set (p := strip_marker s) in *. split.
  - intros [e He]. rewrite decode_swap_log_segments in He. fold p in He.
    destruct (Nat.Even_or_Odd (String.length p)) as [Hev|Hodd],
             (decide (String.length p < 128)%nat) as [Hlt|Hge];
      [exfalso | exfalso | done | exfalso].
    all: assert (Heven : Nat.Even (String.length (slice 0 64 p)) ∧
                         Nat.Even (String.length (slice 64 128 p)))
      by (rewrite segment0_length, segment1_length;
          first [ destruct Hev as [k Hk];
                  split; [exists (32 `min` k)%nat | exists (32 `min` (k - 32))%nat]; lia
                | split; exists 32%nat; lia ]).
    all: destruct Heven as [He0 He1].
    all: destruct (bytes_fromhex_even _ (hex_only_substring 0 (64 - 0) p Hhex) He0) as [b0 H0].
    all: destruct (bytes_fromhex_even _ (hex_only_substring 64 (128 - 64) p Hhex) He1) as [b1 H1].
    all: unfold slice in He; rewrite H0 in He; unfold mbind, result_bind in He;
      rewrite H1 in He; discriminate He.
  - intros [Hlen Hodd]. exists ValueError. apply decode_swap_log_raises. fold p.
    destruct (decide (String.length p < 64)%nat) as [Hlt|Hge].
    + left. apply bytes_fromhex_odd; [by apply hex_only_substring|].
      rewrite segment0_length, Nat.min_r by lia. done.
    + right. apply bytes_fromhex_odd; [by apply hex_only_substring|].
      rewrite segment1_length. destruct Hodd as [k Hk]. exists (k - 32)%nat. lia.
Qed.

Lemma decode_swap_log_hex_only_witness :
  (raises (decode_swap_log "0xabc") ↔
     (String.length (strip_marker "0xabc") < 128)%nat ∧
     Nat.Odd (String.length (strip_marker "0xabc"))) ∧
  (raises (decode_swap_log "0xabcd") ↔
     (String.length (strip_marker "0xabcd") < 128)%nat ∧
     Nat.Odd (String.length (strip_marker "0xabcd"))).
Proof.
  split; apply decode_swap_log_hex_only; repeat constructor; by eexists.
Defined.

Lemma hex_upper_value (c : ascii) :
  hex_digit_value (hex_upper c) = hex_digit_value c ∧
  Py_ISSPACE (hex_upper c) = Py_ISSPACE c ∧
  (hex_upper c = "0"%char ↔ c = "0"%char) ∧ (hex_upper c = "x"%char ↔ c = "x"%char).
Proof.
  destruct c as [[] [] [] [] [] [] [] []]; vm_compute; repeat split; congruence.
Qed.

Lemma list_ascii_map_string (f : ascii → ascii) (s : string) :
  list_ascii_of_string (map_string f s) = f <$> list_ascii_of_string s.
Proof. induction s as [|c s IH]; simpl; [done|]. by rewrite IH. Qed.

Lemma map_string_length (f : ascii → ascii) (s : string) :
  String.length (map_string f s) = String.length s.
Proof. induction s; simpl; congruence. Qed.

Lemma map_string_substring (f : ascii → ascii) (n m : nat) (s : string) :
  String.substring n m (map_string f s) = map_string f (String.substring n m s).
Proof.
  apply string_of_list_eq.
  by rewrite list_ascii_substring, !list_ascii_map_string, list_ascii_substring,
    fmap_take, fmap_drop.
Qed.

Lemma bytes_fromhex_upper (s : string) :
  bytes_fromhex (map_string hex_upper s) = bytes_fromhex s.
Proof.
  assert (Hle : (String.length s ≤ String.length s)%nat) by lia.
  revert Hle. generalize (String.length s) at 2. intros n.
  revert s. induction n as [|n IH]; intros s Hle.
  { destruct s; simpl in *; [done|lia]. }
  destruct s as [|c0 s']; [done|]. simpl in Hle. cbn [map_string bytes_fromhex].
  destruct (hex_upper_value c0) as (-> & -> & _).
  destruct (Py_ISSPACE c0); [apply IH; lia|].
  destruct (hex_digit_value c0); [|done].
  destruct s' as [|d s'']; [done|]. simpl in Hle. cbn [map_string].
  destruct (hex_upper_value d) as (-> & _).
  destruct (hex_digit_value d); [|done].
  rewrite IH by lia. done.
Qed.

Lemma strip_marker_upper (s : string) :
  strip_marker (map_string hex_upper s) = map_string hex_upper (strip_marker s).
Proof.
  unfold strip_marker, slice_from.
  rewrite map_string_substring, map_string_length.
  assert (startswith (map_string hex_upper s) "0x" = startswith s "0x") as ->; [|by destruct (startswith s "0x")].
  assert (Hempty : ∀ u, String.prefix "" u = true) by (by intros []).
  destruct s as [|c [|d s]]; [done| |]; unfold startswith; cbn [map_string String.prefix].
  - destruct (hex_upper_value c) as (_ & _ & Hc & _).
    destruct (ascii_dec "0" (hex_upper c)), (ascii_dec "0" c), Hc;
      try done; exfalso; eauto 6 using eq_sym.
  - destruct (hex_upper_value c) as (_ & _ & Hc & _), (hex_upper_value d) as (_ & _ & _ & Hd).
    rewrite !Hempty.
    destruct (ascii_dec "0" (hex_upper c)), (ascii_dec "0" c),
             (ascii_dec "x" (hex_upper d)), (ascii_dec "x" d), Hc, Hd;
      try done; exfalso; eauto 6 using eq_sym.
Qed.

(** X4: the digits [a] to [f] may be written in either case: putting
    them in upper case anywhere in the payload changes nothing. *)
Theorem decode_swap_log_upper (s : string) :
  decode_swap_log (map_string hex_upper s) = decode_swap_log s.
Proof.
  rewrite !decode_swap_log_segments, strip_marker_upper. unfold slice.
  by rewrite !map_string_substring, !bytes_fromhex_upper.
Qed.

Lemma strip_marker_not_marked (s : string) : startswith s "0x" = false → strip_marker s = s.
Proof. unfold strip_marker. by intros ->. Qed.

Lemma decode_swap_log_bad_second (p : string) (c1 : ascii) :
  hex_digit_value c1 = None → Py_ISSPACE c1 = false →
  String.get 1 (strip_marker p) = Some c1 →
  decode_swap_log p = Raise ValueError.
Proof.
  intros Hhex Hsp Hget. apply decode_swap_log_raises. left.
  apply (bytes_fromhex_bad_char _ 1 c1); [|done..].
  by apply get_segment0; [lia|].
Qed.

(** X5: the marker is optional, is lower-case and is stripped once: a
    payload without it decodes as the same payload with it, and a
    payload that starts with "0X", or with the marker twice, is refused. *)
Theorem decode_swap_log_marker (s : string) :
  (startswith s "0x" = false → decode_swap_log ("0x" +:+ s) = decode_swap_log s) ∧
  decode_swap_log ("0X" +:+ s) = Raise ValueError ∧
  decode_swap_log ("0x0x" +:+ s) = Raise ValueError.
Proof.
  split; [|split].
  - intros Hs. by rewrite !decode_swap_log_segments, strip_marker_0x, strip_marker_not_marked.
  - apply (decode_swap_log_bad_second _ "X"); [done..|].
    by rewrite strip_marker_not_marked.
  - apply (decode_swap_log_bad_second _ "x"); [done..|].
    change ("0x0x" +:+ s) with ("0x" +:+ ("0x" +:+ s)). by rewrite strip_marker_0x.
Qed.

(** [int.from_bytes] undoes the [n]-byte two's-complement encoding. *)
Lemma int_from_bytes_twos_complement_width (n : nat) (v : Z) :
  (1 ≤ n)%nat → int_range n v →
  int_from_bytes_big_signed (int_to_bytes_big n (v mod 2 ^ (8 * Z.of_nat n))) = v.
Proof.
  intros Hn Hv. destruct n as [|m]; [lia|]. clear Hn. unfold int_range in Hv.
  set (k := Z.of_nat m) in *.
  assert (Hk : 0 ≤ k) by (unfold k; lia).
  replace (8 * Z.of_nat (S m)) with (8 * k + 8) in * by (unfold k; lia).
  replace (8 * k + 8 - 1) with (8 * k + 7) in Hv by lia.
  rewrite !Z.pow_add_r in * by lia. rewrite (Z.pow_mul_r 2 8 k) in * by lia.
  change (2 ^ 8) with 256 in *. change (2 ^ 7) with 128 in *.
  set (P := 256 ^ k) in *.
  assert (HP : 0 < P) by (apply Z.pow_pos_nonneg; lia).
  set (u := v mod (P * 256)).
  assert (Hu : 0 ≤ u < P * 256) by (apply Z.mod_pos_bound; lia).
  assert (Hun : unsigned_big (int_to_bytes_big (S m) u) = u).
  { unfold unsigned_big. rewrite unsigned_big_to_bytes.
    rewrite Nat2Z.inj_succ, Z.pow_succ_r by lia. fold k. fold P.
    rewrite (Z.mul_comm 256 P), Z.mod_small; lia. }
  cbn [int_to_bytes_big] in *. fold k in Hun |- *. fold P in Hun |- *.
  unfold int_from_bytes_big_signed. rewrite Hun.
  assert (Hq : 0 ≤ u / P < 256).
  { split; [apply Z.div_pos; lia | apply Z.div_lt_upper_bound; lia]. }
  rewrite (Z.mod_small _ 256) by done. rewrite testbit7 by done.
  cbn [length]. rewrite int_to_bytes_big_length.
  replace (2 ^ (8 * Z.of_nat (S m))) with (P * 256).
  2:{ replace (8 * Z.of_nat (S m)) with (8 * k + 8) by (unfold k; lia).
      rewrite Z.pow_add_r, (Z.pow_mul_r 2 8 k) by lia. done. }
  pose proof (Z.div_mod u P ltac:(lia)) as Hdm.
  pose proof (Z.mod_pos_bound u P ltac:(lia)) as Hmb.
  destruct (Z.leb_spec 128 (u / P)) as [Hge|Hlt].
  - assert (128 * P ≤ u) by nia.
    destruct (Z.lt_ge_cases v 0) as [Hneg|Hpos].
    + subst u. rewrite <- (Z.mod_unique_pos v (P * 256) (-1) (v + P * 256)) in *; lia.
    + subst u. rewrite Z.mod_small in *; lia.
  - assert (u < 128 * P) by nia.
    destruct (Z.lt_ge_cases v 0) as [Hneg|Hpos].
    + subst u. rewrite <- (Z.mod_unique_pos v (P * 256) (-1) (v + P * 256)) in *; lia.
    + subst u. rewrite Z.mod_small; lia.
Qed.

Lemma strip_marker_bytes_hex (b : Z) (bs : list Z) :
  0 ≤ b < 256 → strip_marker (bytes_hex (b :: bs)) = bytes_hex (b :: bs).
Proof.
  intros Hb. apply strip_marker_not_marked.
  destruct (byte_nibbles b Hb) as (_ & Hlo & _).
  unfold startswith. cbn [bytes_hex String.prefix].
  destruct (ascii_dec "0" _); [|done].
  destruct (ascii_dec "x" (hex_char (Z.land b 15))) as [Heq|]; [|done].
  by destruct (hex_char_not_x _ Hlo).
Qed.

(** X6: a payload shorter than a segment is read at its own width: the
    [n] bytes of a two's-complement value, [n] from 1 to 32, decode to
    that value as [amount0], sign included, and to 0 as [amount1]. *)
Theorem decode_swap_log_narrow (n : nat) (v : Z) :
  (1 ≤ n ≤ 32)%nat → int_range n v →
  decode_swap_log (bytes_hex (int_to_bytes_big n (v mod 2 ^ (8 * Z.of_nat n)))) = Ok (v, 0).
Proof.
  intros Hn Hv.
  pose proof (int_from_bytes_twos_complement_width n v ltac:(lia) Hv) as Hval.
  set (bs := int_to_bytes_big n (v mod 2 ^ (8 * Z.of_nat n))) in *.
  assert (Hlen : length bs = n) by apply int_to_bytes_big_length.
  assert (Hall : Forall (λ b, 0 ≤ b < 256) bs) by apply int_to_bytes_big_range.
  assert (Hstrip : strip_marker (bytes_hex bs) = bytes_hex bs).
  { destruct bs as [|b bs']; [simpl in Hlen; lia|].
    apply strip_marker_bytes_hex. by apply Forall_cons in Hall as [? _]. }
  rewrite decode_swap_log_segments, Hstrip.
  assert (slice 0 64 (bytes_hex bs) = bytes_hex bs) as ->.
  { apply string_of_list_eq. unfold slice. rewrite list_ascii_substring, drop_0.
    apply take_ge. rewrite list_ascii_length, bytes_hex_length. lia. }
  assert (slice 64 128 (bytes_hex bs) = "") as ->.
  { apply string_of_list_eq. unfold slice. rewrite list_ascii_substring.
    rewrite drop_ge by (rewrite list_ascii_length, bytes_hex_length; lia). done. }
  rewrite bytes_fromhex_hex by done. cbn. by rewrite Hval.
Qed.

Lemma decode_swap_log_narrow_witness :
  decode_swap_log "ff" = Ok (-1, 0) ∧ decode_swap_log "0080" = Ok (128, 0).
Proof.
  split.
  - apply (decode_swap_log_narrow 1 (-1)); [lia|]. unfold int_range. simpl. lia.
  - apply (decode_swap_log_narrow 2 128); [lia|]. unfold int_range. simpl. lia.
Defined.

(** * More on the classifier *)

Lemma near_pair_cons (a : string) (r : Swap) (df : list Swap) :
  near_pair a (r :: df) ↔
    (sender r = a ∧ ∃ r2 : Swap, r2 ∈ df ∧ sender r2 = a ∧
       Z.abs (block_timestamp r - block_timestamp r2) ≤ threshold)
    ∨ near_pair a df.
Proof.
  split.
  - intros (i & j & r1 & r2 & Hij & Hi & Hj & H1 & H2 & Hle).
    destruct j as [|j]; [lia|]. destruct i as [|i]; cbn in Hi, Hj.
    + injection Hi as ->. left. split; [done|]. exists r2.
      split; [by eapply list_elem_of_lookup_2|done].
    + right. exists i, j, r1, r2. split; [lia|done].
  - intros [(Hr & r2 & Hin & H2 & Hle) | (i & j & r1 & r2 & Hij & Hi & Hj & H)].
    + apply list_elem_of_lookup in Hin as [j Hj].
      exists 0%nat, (S j), r, r2. split; [lia|done].
    + exists (S i), (S j), r1, r2. split; [lia|done].
Qed.

Lemma near_pair_Permutation (a : string) (df1 df2 : list Swap) :
  df1 ≡ₚ df2 → near_pair a df1 ↔ near_pair a df2.
Proof.
  induction 1 as [|x l1 l2 Hperm IH|x y l|l1 l2 l3 _ IH1 _ IH2].
  - done.
  - rewrite !near_pair_cons, IH. by setoid_rewrite Hperm.
  - rewrite !near_pair_cons. setoid_rewrite elem_of_cons. split.
    + intros [(Hy & r2 & [-> | Hin] & H2 & Hle) | [(Hx & r2 & Hin & H2 & Hle) | Hnear]].
      * left. split; [done|]. exists y. split; [by left|]. split; [done|lia].
      * right. left. split; [done|]. by exists r2.
      * left. split; [done|]. exists r2. split; [by right|done].
      * by right; right.
    + intros [(Hx & r2 & [-> | Hin] & H2 & Hle) | [(Hy & r2 & Hin & H2 & Hle) | Hnear]].
      * left. split; [done|]. exists x. split; [by left|]. split; [done|lia].
      * right. left. split; [done|]. by exists r2.
      * left. split; [done|]. exists r2. split; [by right|done].
      * by right; right.
  - by rewrite IH1.
Qed.

Lemma close_pair_cons (t : Z) (l : list Z) :
  close_pair (t :: l) ↔
    match l with
    | [] => False
    | t' :: _ => t' - t ≤ threshold ∨ close_pair l
    end.
Proof.
  rewrite <- close_from_Some. destruct l as [|t' l]; cbn [close_from].
  - done.
  - rewrite orb_true_iff, close_from_Some. cbn. by rewrite Z.leb_le.
Qed.

Lemma close_pair_nil : ¬ close_pair [].
Proof. intros (i & t1 & t2 & H1 & _). by destruct i. Qed.

(** In the sorted frame the consecutive timestamps of an actor are
    within the threshold exactly when two of its rows are. *)
Lemma close_pair_near_pair (a : string) (df : list Swap) :
  StronglySorted by_sender_timestamp df →
  close_pair (timestamps_of a df) ↔ near_pair a df.
Proof.
  induction 1 as [|r df Hsorted IH Hall].
  - split; [by intros ?%close_pair_nil|]. intros (i & j & r1 & r2 & _ & Hi & _). by destruct i.
  - rewrite near_pair_cons, timestamps_of_cons.
    destruct (decide (sender r = a)) as [Ha|Hne]; [|rewrite IH; tauto].
    pose proof (timestamps_of_sorted a df Hsorted) as HL.
    assert (Hfirst : ∀ t, t ∈ timestamps_of a df → block_timestamp r ≤ t).
    { intros t (r' & Hin & Hs & <-)%elem_of_timestamps_of.
      rewrite Forall_forall in Hall. destruct (Hall r' Hin) as [_ Hle].
      apply Hle. congruence. }
    rewrite close_pair_cons, <- IH.
    destruct (timestamps_of a df) as [|t' L] eqn:HeqL.
    + split; [done|]. intros [(_ & r2 & Hin & Hs & _) | Hclose].
      * assert (block_timestamp r2 ∈ timestamps_of a df)
          by (apply elem_of_timestamps_of; by exists r2).
        rewrite HeqL in *. by apply elem_of_nil in H.
      * by apply close_pair_nil in Hclose.
    + assert (Ht' : block_timestamp r ≤ t') by (apply Hfirst; by left).
      split.
      * intros [Hle | Hclose]; [|by right]. left. split; [done|].
        assert (t' ∈ timestamps_of a df) as (r2 & Hin & Hs & Hts)%elem_of_timestamps_of
          by (rewrite HeqL; by left).
        exists r2. split; [done|]. split; [done|]. rewrite Hts. lia.
      * intros [(_ & r2 & Hin & Hs & Hle) | Hclose]; [|by right]. left.
        assert (Hin2 : block_timestamp r2 ∈ t' :: L).
        { rewrite <- HeqL. apply elem_of_timestamps_of. by exists r2. }
        assert (t' ≤ block_timestamp r2).
        { apply elem_of_cons in Hin2 as [-> | Hin2]; [lia|].
          apply StronglySorted_inv in HL as [_ HL]. rewrite Forall_forall in HL.
          by apply HL. }
        lia.
Qed.

Lemma classify_is_bot_near_pair (df : list Swap) (r : Classified) :
  r ∈ classify df → is_bot r = true ↔ near_pair (sender r) df.
Proof.
  intros Hin. rewrite (classify_is_bot df r Hin), close_pair_near_pair
    by (apply StronglySorted_merge_sort; apply _).
  apply near_pair_Permutation, merge_sort_Permutation.
Qed.

(** X7: an actor is flagged exactly when two of its events, any two and
    not only neighbours in time, are no more than five minutes apart. *)
Theorem classify_bot_iff_near_pair (df : list Swap) (r : Classified) :
  r ∈ classify df ∨ r ∈ display_set df →
  is_bot r = true ↔ near_pair (sender r) df.
Proof.
  intros Hr. apply classify_is_bot_near_pair.
  destruct Hr; [done|by apply display_set_subseteq].
Qed.

Lemma classify_bot_iff_near_pair_witness :
  Forall (λ r : Classified, is_bot r = true ↔ near_pair (sender r) sample_frame)
         (classify sample_frame).
Proof.
  apply Forall_forall. intros r Hr. apply classify_bot_iff_near_pair. by left.
Defined.

(** X8: the flag belongs to the actor and not to the row or to the order
    of the rows: in two frames with the same rows, in whatever order,
    rows of the same sender carry the same flag. *)
Theorem classify_order_independent (df1 df2 : list Swap) (r1 r2 : Classified) :
  df1 ≡ₚ df2 → r1 ∈ classify df1 → r2 ∈ classify df2 → sender r1 = sender r2 →
  is_bot r1 = is_bot r2.
Proof.
  intros Hperm H1 H2 Hs.
  pose proof (classify_is_bot_near_pair df1 r1 H1) as Hb1.
  pose proof (classify_is_bot_near_pair df2 r2 H2) as Hb2.
  rewrite Hs, (near_pair_Permutation _ _ _ Hperm), <- Hb2 in Hb1.
  destruct (is_bot r1), (is_bot r2); intuition congruence.
Qed.

Lemma classify_order_independent_witness :
  Forall (λ r1 : Classified,
            Forall (λ r2 : Classified, sender r1 = sender r2 → is_bot r1 = is_bot r2)
                   (classify (reverse sample_frame)))
         (classify sample_frame).
Proof.
  apply Forall_forall. intros r1 H1. apply Forall_forall. intros r2 H2.
  apply (classify_order_independent sample_frame (reverse sample_frame)); [|done..].
  symmetry. apply reverse_Permutation.
Defined.

Lemma near_pair_app (a : string) (df extra : list Swap) :
  near_pair a df → near_pair a (df ++ extra).
Proof.
  intros (i & j & r1 & r2 & Hij & Hi & Hj & H). exists i, j, r1, r2.
  split; [done|]. split; [by apply lookup_app_l_Some|]. split; [by apply lookup_app_l_Some|done].
Qed.

(** X9: more rows never clear an actor: when the rows of one frame are
    among those of another, an actor flagged in the first is flagged in
    the second. *)
Theorem classify_monotone (df extra df' : list Swap) (r r' : Classified) :
  df' ≡ₚ df ++ extra → r ∈ classify df → is_bot r = true →
  r' ∈ classify df' → sender r' = sender r → is_bot r' = true.
Proof.
  intros Hperm Hr Hbot Hr' Hs.
  apply (classify_is_bot_near_pair df' r' Hr'). rewrite Hs.
  apply (near_pair_Permutation _ _ _ Hperm), near_pair_app.
  by apply (classify_is_bot_near_pair df r Hr).
Qed.

Lemma classify_monotone_witness :
  Forall (λ r' : Classified, sender r' = "0xA" → is_bot r' = true)
         (classify (sample_swap "0xD" 0 :: sample_frame ++ [sample_swap "0xA" (700 * minute)])).
Proof.
  apply Forall_forall. intros r' Hr' Hs.
  apply (classify_monotone sample_frame
           [sample_swap "0xA" (700 * minute); sample_swap "0xD" 0]
           (sample_swap "0xD" 0 :: sample_frame ++ [sample_swap "0xA" (700 * minute)])
           {| swap := sample_swap "0xA" (600 * minute); time_diff := None; is_bot := true |} r').
  - etrans; [apply Permutation_skip; symmetry; apply Permutation_cons_append|].
    rewrite (Permutation_app_comm sample_frame). apply Permutation_swap.
  - vm_compute. repeat constructor.
  - reflexivity.
  - exact Hr'.
  - exact Hs.
Defined.

(** The time differences over a sorted frame: [last] holds timestamps
    that no later row of the same sender precedes. *)
Lemma groupby_diff_nonneg (last : gmap string Z) (df : list Swap) :
  StronglySorted by_sender_timestamp df →
  (∀ (r : Swap) t, r ∈ df → last !! sender r = Some t → t ≤ block_timestamp r) →
  Forall (λ d, ∀ x, d = Some x → 0 ≤ x) (groupby_diff last df).
Proof.
  intros Hsorted. revert last. induction Hsorted as [|r df Hsorted IH Hall]; intros last Hlast.
  - constructor.
  - cbn [groupby_diff]. constructor.
    + intros x Hx. destruct (last !! sender r) as [t|] eqn:Ht; [|done].
      injection Hx as <-. specialize (Hlast r t ltac:(by left) Ht). lia.
    + apply IH. intros r' t Hin Hlook.
      destruct (decide (sender r = sender r')) as [Heq|Hne].
      * rewrite Heq, lookup_insert_eq in Hlook. injection Hlook as <-.
        rewrite Forall_forall in Hall. by apply (Hall r' Hin).
      * rewrite lookup_insert_ne in Hlook by done. apply (Hlast r' t); [by right|done].
Qed.

Lemma time_diff_classify (df : list Swap) :
  time_diff <$> classify df = groupby_diff ∅ (merge_sort by_sender_timestamp df).
Proof.
  unfold classify. rewrite <- list_fmap_compose.
  etrans; [|apply (snd_zip (merge_sort by_sender_timestamp df)
                     (groupby_diff ∅ (merge_sort by_sender_timestamp df)));
            by rewrite length_groupby_diff].
  by apply list_fmap_ext.
Qed.

(** X10: a time difference is never negative: the frame is sorted by
    sender and timestamp when the differences are taken. *)
Theorem time_diff_nonneg (df : list Swap) (r : Classified) (d : Z) :
  r ∈ classify df ∨ r ∈ display_set df → time_diff r = Some d → 0 ≤ d.
Proof.
  intros Hr Hd.
  assert (Hin : r ∈ classify df) by (destruct Hr; [done|by apply display_set_subseteq]).
  assert (Hall : Forall (λ d, ∀ x, d = Some x → 0 ≤ x) (time_diff <$> classify df)).
  { rewrite time_diff_classify. apply groupby_diff_nonneg.
    - apply StronglySorted_merge_sort; apply _.
    - intros r' t _ Hlook. by rewrite lookup_empty in Hlook. }
  rewrite Forall_forall in Hall. apply (Hall (time_diff r)); [|done].
  by apply list_elem_of_fmap_2.
Qed.

Lemma time_diff_nonneg_witness :
  Forall (λ r : Classified, ∀ d, time_diff r = Some d → 0 ≤ d) (classify sample_frame).
Proof.
  apply Forall_forall. intros r Hr d. apply (time_diff_nonneg sample_frame). by left.
Defined.

(** * More on the run *)

(** X11: the feed is made of the newest rows: the classified rows that
    are left out of it are no newer than any row in it. *)
Theorem display_set_newest (df : list Swap) :
  ∃ rest : list Classified,
    display_set df ++ rest ≡ₚ classify df ∧
    ∀ a b : Classified, a ∈ display_set df → b ∈ rest →
                        block_timestamp b ≤ block_timestamp a.
Proof.
  exists (drop 20 (merge_sort newest_first (classify df))). unfold display_set, head. split.
  - rewrite take_drop. apply merge_sort_Permutation.
  - intros a b Ha Hb.
    apply (StronglySorted_app_1_elem_of newest_first
             (take 20 (merge_sort newest_first (classify df)))
             (drop 20 (merge_sort newest_first (classify df))) a b); [|done..].
    rewrite take_drop. apply StronglySorted_merge_sort; apply _.
Qed.

Lemma decode_rows_raw (rows : list RawRow) (df : list Swap) :
  decode_rows rows = Ok df → (λ s : Swap, raw s) <$> df = rows.
Proof.
  revert df. induction rows as [|r rows IH]; intros df; cbn [decode_rows].
  - by intros [= <-].
  - unfold decode_row. destruct (decode_swap_log (data r)) as [[a0 a1]|e]; cbn; [|done].
    destruct (decode_rows rows) as [rest|e]; cbn; [|done].
    intros [= <-]. rewrite fmap_cons. cbn. by rewrite (IH rest).
Qed.

(** The three ways a run ends. *)
Lemma get_crypto_data_cases (w : World) :
  (∃ e, get_crypto_data w = {| returned := Raise e; service_calls := [] |}) ∨
  get_crypto_data w = {| returned := Ok []; service_calls := [] |} ∨
  ∃ rows df,
    startup w = Ok () ∧ query w = Some rows ∧ rows ≠ [] ∧ decode_rows rows = Ok df ∧
    get_crypto_data w =
      {| returned := Ok (annotated (model w) (display_set df));
         service_calls := prompt <$> head 10 (display_set df) |}.
Proof.
  destruct (startup w) as [[]|e] eqn:Hstart.
  2:{ left. exists e. unfold get_crypto_data. by rewrite Hstart. }
  destruct (query w) as [[|r rows]|] eqn:Hquery.
  - right. left. unfold get_crypto_data. by rewrite Hstart, Hquery.
  - destruct (decode_rows (r :: rows)) as [df|e] eqn:Hdec.
    + right. right. exists (r :: rows), df. repeat split; try done.
      by apply (get_crypto_data_decoded w (r :: rows)).
    + left. exists e. unfold get_crypto_data. by rewrite Hstart, Hquery, Hdec.
  - right. left. unfold get_crypto_data. by rewrite Hstart, Hquery.
Qed.

(** X12: when no more than 20 rows are fetched none is dropped and none
    is duplicated: the returned rows are the fetched rows, rearranged. *)
Theorem small_fetch_all_returned (w : World) (rows : list RawRow) :
  startup w = Ok () → query w = Some rows → rows ≠ [] → Forall decodable rows →
  (length rows ≤ 20)%nat →
  ∃ out, returned (get_crypto_data w) = Ok out ∧
         (λ a : Annotated, raw a) <$> out ≡ₚ rows.
Proof.
  intros Hstart Hquery Hne Hall Hlen.
  destruct (get_crypto_data_returns w rows Hstart Hquery Hne Hall)
    as (df & Hdf & Hldf & Hret & _).
  exists (annotated (model w) (display_set df)). split; [done|].
  rewrite <- (decode_rows_raw rows df Hdf).
  rewrite <- (merge_sort_Permutation by_sender_timestamp df) at 2.
  rewrite <- swap_classify, <- (merge_sort_Permutation newest_first (classify df)) at 1.
  rewrite <- (take_ge (merge_sort newest_first (classify df)) 20)
    by (rewrite (Permutation_length (merge_sort_Permutation _ _)), length_classify; lia).
  fold (head 20 (merge_sort newest_first (classify df))). fold (display_set df).
  rewrite <- (event_annotated (model w) (display_set df)) at 2.
  rewrite <- !list_fmap_compose. done.
Qed.

Lemma small_fetch_all_returned_witness :
  ∃ out, returned (get_crypto_data (sample_world (Some (sample_rows 7)))) = Ok out ∧
         (λ a : Annotated, raw a) <$> out ≡ₚ sample_rows 7.
Proof.
  apply (small_fetch_all_returned (sample_world (Some (sample_rows 7))) (sample_rows 7));
    [reflexivity | reflexivity | discriminate | | vm_compute; lia].
  apply (bool_decide_unpack _). vm_compute. exact I.
Defined.

(** X14: no run sends more than ten prompts to the narrative service; a
    run that raises has sent none, and a run that returns has sent one
    per returned row up to the tenth. *)
Theorem service_calls_capped (w : World) :
  (length (service_calls (get_crypto_data w)) ≤ 10)%nat ∧
  (∀ e, returned (get_crypto_data w) = Raise e → service_calls (get_crypto_data w) = []) ∧
  (∀ out, returned (get_crypto_data w) = Ok out →
          length (service_calls (get_crypto_data w)) = (10 `min` length out)%nat).
Proof.
  destruct (get_crypto_data_cases w) as [[e He] | [He | (rows & df & _ & _ & _ & _ & He)]];
    rewrite He; cbn [returned service_calls].
  - split; [simpl; lia|]. split; [done|]. intros out [=].
  - split; [simpl; lia|]. split; [done|]. by intros out [= <-].
  - unfold head. rewrite length_fmap, length_take. split; [lia|]. split; [intros e [=]|].
    intros out [= <-]. by rewrite length_annotated.
Qed.

Lemma get_crypto_data_startup_raises (w : World) (e : exn) :
  startup w = Raise e → returned (get_crypto_data w) = Raise e.
Proof. intros H. unfold get_crypto_data. by rewrite H. Qed.

Lemma get_crypto_data_started (w : World) :
  startup w = Ok () →
  (∃ out, returned (get_crypto_data w) = Ok out) ∨
  (returned (get_crypto_data w) = Raise ValueError ∧
   ∃ rows, query w = Some rows ∧ ¬ Forall decodable rows).
Proof.
  intros Hstart. destruct (query w) as [rows|] eqn:Hquery.
  - destruct (decide (Forall decodable rows)) as [Hall|Hnot].
    + left. destruct (decide (rows = [])) as [->|Hne].
      * exists []. unfold get_crypto_data. by rewrite Hstart, Hquery.
      * destruct (get_crypto_data_returns w rows Hstart Hquery Hne Hall)
          as (df & _ & _ & Hret & _). by eexists.
    + right. rewrite (get_crypto_data_undecodable w rows Hstart Hquery Hnot).
      split; [done|]. by exists rows.
  - left. exists []. unfold get_crypto_data. by rewrite Hstart, Hquery.
Qed.

Lemma startup_raises (w : World) (e : exn) :
  startup w = Raise e ↔
    match e with
    | CredentialsNotSet => unset (GOOGLE_APPLICATION_CREDENTIALS (env w)) = true
    | GeminiConfigFailure =>
        unset (GOOGLE_APPLICATION_CREDENTIALS (env w)) = false ∧
        unset (GOOGLE_API_KEY (env w)) = true ∧ secrets_GOOGLE_API_KEY (env w) = None
    | ClientError => configure (env w) = Ok () ∧ client_raises w = true
    | ValueError => False
    end.
Proof.
  unfold startup, configure.
  destruct (unset (GOOGLE_APPLICATION_CREDENTIALS (env w))),
           (unset (GOOGLE_API_KEY (env w))), (secrets_GOOGLE_API_KEY (env w)),
           (client_raises w), e; cbn; intuition congruence.
Qed.

Lemma returned_raises_started (w : World) (e : exn) :
  startup w = Ok () → returned (get_crypto_data w) = Raise e →
  e = ValueError ∧ ∃ rows, query w = Some rows ∧ ¬ Forall decodable rows.
Proof.
  intros Hstart Hret.
  destruct (get_crypto_data_started w Hstart) as [[out Hout] | [Hv Hrows]]; [congruence|].
  split; [congruence|done].
Qed.

Lemma returned_raises_startup (w : World) (e : exn) :
  e ≠ ValueError → returned (get_crypto_data w) = Raise e ↔ startup w = Raise e.
Proof.
  intros He. split.
  - intros Hret. destruct (startup w) as [[]|e'] eqn:Hstart.
    + by destruct (returned_raises_started w e Hstart Hret).
    + rewrite (get_crypto_data_startup_raises w e' Hstart) in Hret. congruence.
  - apply get_crypto_data_startup_raises.
Qed.

(** X15: each exception a run can end with has one cause. The missing
    credentials variable is looked at first, the API key (with its
    fallback to the Streamlit secrets) second, the BigQuery client
    third; a [ValueError] means that the run reached the query and that
    a fetched payload does not decode. *)
Theorem get_crypto_data_raises (w : World) :
  (returned (get_crypto_data w) = Raise CredentialsNotSet ↔
     unset (GOOGLE_APPLICATION_CREDENTIALS (env w)) = true) ∧
  (returned (get_crypto_data w) = Raise GeminiConfigFailure ↔
     unset (GOOGLE_APPLICATION_CREDENTIALS (env w)) = false ∧
     unset (GOOGLE_API_KEY (env w)) = true ∧ secrets_GOOGLE_API_KEY (env w) = None) ∧
  (returned (get_crypto_data w) = Raise ClientError ↔
     configure (env w) = Ok () ∧ client_raises w = true) ∧
  (returned (get_crypto_data w) = Raise ValueError ↔
     startup w = Ok () ∧ ∃ rows, query w = Some rows ∧ ¬ Forall decodable rows).
Proof.
  split; [|split; [|split]].
  - rewrite returned_raises_startup by done. apply (startup_raises w CredentialsNotSet).
  - rewrite returned_raises_startup by done. apply (startup_raises w GeminiConfigFailure).
  - rewrite returned_raises_startup by done. apply (startup_raises w ClientError).
  - split.
    + intros Hret. destruct (startup w) as [[]|e'] eqn:Hstart.
      * split; [done|]. by destruct (returned_raises_started w _ Hstart Hret).
      * rewrite (get_crypto_data_startup_raises w e' Hstart) in Hret.
        injection Hret as ->. by apply (startup_raises w ValueError) in Hstart.
    + intros (Hstart & rows & Hquery & Hnot).
      by rewrite (get_crypto_data_undecodable w rows Hstart Hquery Hnot).
Qed.

(** The empty frame is returned for an empty or failed query and for
    nothing else. *)
Lemma returned_empty (w : World) :
  returned (get_crypto_data w) = Ok [] ↔
    startup w = Ok () ∧ (query w = None ∨ query w = Some []).
Proof.
  split.
  - intros Hret.
    destruct (get_crypto_data_cases w)
      as [[e He] | [He | (rows & df & Hstart & Hquery & Hne & Hdf & He)]].
    + rewrite He in Hret. discriminate Hret.
    + clear Hret. unfold get_crypto_data in He.
      destruct (startup w) as [[]|e]; [|discriminate He]. split; [done|].
      destruct (query w) as [[|r rows]|]; [by right| |by left].
      destruct (decode_rows (r :: rows)) as [df|e] eqn:Hdec; [|discriminate He].
      exfalso. injection He as He _. unfold assign_column in He.
      destruct (decide _) as [Hlen|]; [|discriminate He]. injection He as He.
      apply (f_equal length) in He. rewrite length_zip_with, Hlen, Nat.min_id in He.
      rewrite length_display_set, (decode_rows_length _ _ Hdec) in He. simpl in He. lia.
    + exfalso. rewrite He in Hret. cbn in Hret. injection Hret as Hret.
      apply (f_equal length) in Hret.
      rewrite length_annotated, length_display_set, (decode_rows_length _ _ Hdf) in Hret.
      destruct rows; [done|simpl in Hret; lia].
  - intros [Hstart Hquery]. unfold get_crypto_data. rewrite Hstart.
    by destruct Hquery as [-> | ->].
Qed.

(** X16: run as a script the module ends in the [KeyError] of its last
    line exactly when the run reached the query and the query raised or
    gave no row: the frame that is returned then has no column. *)
Theorem main_key_error (w : World) :
  main w = ScriptKeyError ↔
    startup w = Ok () ∧ (query w = None ∨ query w = Some []).
Proof.
  rewrite <- returned_empty. unfold main.
  destruct (returned (get_crypto_data w)) as [[|a out]|e]; split; done.
Qed.

(** * [load_secrets] *)

(** X17: with a non-empty API key and the two other secrets in place,
    the three variables end with the values of the secrets, whatever the
    environment and the [.env] file say, and a variable that no secret
    names is what it was: the [.env] file is not read. *)
Theorem load_secrets_complete (p : Process) (secrets : gmap string string)
    (key project credentials : string) :
  st_secrets p = Some secrets →
  secrets !! "GOOGLE_API_KEY" = Some key → key ≠ "" →
  secrets !! "GCP_PROJECT" = Some project →
  secrets !! "GOOGLE_APPLICATION_CREDENTIALS" = Some credentials →
  load_secrets p !! "GOOGLE_API_KEY" = Some key ∧
  load_secrets p !! "GCP_PROJECT" = Some project ∧
  load_secrets p !! "GOOGLE_APPLICATION_CREDENTIALS" = Some credentials ∧
  ∀ k, secrets !! k = None → load_secrets p !! k = os_environ p !! k.
Proof.
  intros Hs Hkey Hne Hproj Hcred. unfold load_secrets.
  rewrite Hs, Hkey, Hproj, Hcred, bool_decide_eq_false_2 by done.
  repeat split.
  - by rewrite !lookup_insert_ne, lookup_insert_eq by done.
  - by rewrite lookup_insert_ne, lookup_insert_eq by done.
  - by rewrite lookup_insert_eq.
  - intros k Hk.
    rewrite !lookup_insert_ne by (intros <-; congruence).
    destruct (secrets_exported p); [|done].
    by rewrite lookup_union_r.
Qed.

Lemma load_secrets_complete_witness :
  load_secrets (sample_process (Some sample_secrets)) !! "GOOGLE_API_KEY" = Some "secret-key" ∧
  load_secrets (sample_process (Some sample_secrets)) !! "GCP_PROJECT" = Some "secret-project" ∧
  load_secrets (sample_process (Some sample_secrets)) !! "GOOGLE_APPLICATION_CREDENTIALS"
    = Some "secret.json" ∧
  ∀ k, sample_secrets !! k = None →
       load_secrets (sample_process (Some sample_secrets)) !! k
       = os_environ (sample_process (Some sample_secrets)) !! k.
Proof.
  apply (load_secrets_complete (sample_process (Some sample_secrets)) sample_secrets);
    (reflexivity || discriminate).
Defined.

(** X18: a non-empty API key among the secrets always reaches the
    environment, in place of the value that was there, also when a
    secret after it is missing and the function falls back to the
    [.env] file: the assignment is made before the [KeyError]. *)
Theorem load_secrets_api_key (p : Process) (secrets : gmap string string) (key : string) :
  st_secrets p = Some secrets → secrets !! "GOOGLE_API_KEY" = Some key → key ≠ "" →
  load_secrets p !! "GOOGLE_API_KEY" = Some key.
Proof.
  intros Hs Hkey Hne. unfold load_secrets, load_dotenv.
  rewrite Hs, Hkey, bool_decide_eq_false_2 by done.
  destruct (secrets !! "GCP_PROJECT");
    [destruct (secrets !! "GOOGLE_APPLICATION_CREDENTIALS")|].
  - by rewrite !lookup_insert_ne, lookup_insert_eq by done.
  - apply lookup_union_Some_l. by rewrite lookup_insert_ne, lookup_insert_eq by done.
  - apply lookup_union_Some_l. by rewrite lookup_insert_eq.
Qed.

Lemma load_secrets_api_key_witness :
  load_secrets (sample_process (Some {[ "GOOGLE_API_KEY" := "secret-key" ]}))
    !! "GOOGLE_API_KEY" = Some "secret-key".
Proof.
  apply (load_secrets_api_key _ {[ "GOOGLE_API_KEY" := "secret-key" ]});
    (reflexivity || discriminate).
Defined.

(** X19: nothing is taken from the environment: a variable that is set
    when the app starts and that no secret names has the same value
    after [load_secrets()]; the [.env] file fills gaps only. *)
Theorem load_secrets_keeps_environ (p : Process) (k v : string) :
  os_environ p !! k = Some v →
  (∀ secrets, st_secrets p = Some secrets → secrets !! k = None) →
  load_secrets p !! k = Some v.
Proof.
  intros Hk Hsec. unfold load_secrets, load_dotenv.
  destruct (st_secrets p) as [secrets|] eqn:Hs; [|by apply lookup_union_Some_l].
  specialize (Hsec secrets eq_refl).
  assert (Henv : (if secrets_exported p then secrets ∪ os_environ p else os_environ p) !! k
                 = Some v).
  { destruct (secrets_exported p); [|done]. by rewrite lookup_union_r. }
  destruct (secrets !! "GOOGLE_API_KEY") as [key|] eqn:Hkey;
    [|by apply lookup_union_Some_l].
  destruct (bool_decide (key = "")); [by apply lookup_union_Some_l|].
  assert (k ≠ "GOOGLE_API_KEY") by (intros ->; congruence).
  destruct (secrets !! "GCP_PROJECT") as [project|] eqn:Hproj.
  2:{ apply lookup_union_Some_l. by rewrite lookup_insert_ne by done. }
  assert (k ≠ "GCP_PROJECT") by (intros ->; congruence).
  destruct (secrets !! "GOOGLE_APPLICATION_CREDENTIALS") as [credentials|] eqn:Hcred.
  2:{ apply lookup_union_Some_l. by rewrite !lookup_insert_ne by done. }
  assert (k ≠ "GOOGLE_APPLICATION_CREDENTIALS") by (intros ->; congruence).
  by rewrite !lookup_insert_ne by done.
Qed.

Lemma load_secrets_keeps_environ_witness :
  load_secrets (sample_process (Some sample_secrets)) !! "HOME" = Some "/home/app" ∧
  load_secrets (sample_process None) !! "GOOGLE_API_KEY" = Some "old-key".
Proof.
  split.
  - apply load_secrets_keeps_environ; [reflexivity|]. by intros secrets [= <-].
  - apply load_secrets_keeps_environ; [reflexivity|]. by intros secrets [=].
Defined.

(** X20: after [load_secrets()] with the three secrets in place, the
    key and the credentials path non-empty, the configuration of
    [get_crypto_data] raises nothing. *)
Theorem load_secrets_then_configure (p : Process) (secrets : gmap string string)
    (key project credentials : string) :
  st_secrets p = Some secrets →
  secrets !! "GOOGLE_API_KEY" = Some key → key ≠ "" →
  secrets !! "GCP_PROJECT" = Some project →
  secrets !! "GOOGLE_APPLICATION_CREDENTIALS" = Some credentials → credentials ≠ "" →
  configure (app_env p) = Ok ().
Proof.
  intros Hs Hkey Hne Hproj Hcred Hnec.
  assert (Hk : load_secrets p !! "GOOGLE_API_KEY" = Some key ∧
               load_secrets p !! "GOOGLE_APPLICATION_CREDENTIALS" = Some credentials).
  { unfold load_secrets.
    rewrite Hs, Hkey, Hproj, Hcred, bool_decide_eq_false_2 by done.
    split; [by rewrite !lookup_insert_ne, lookup_insert_eq by done|].
    by rewrite lookup_insert_eq. }
  destruct Hk as [Hk Hc]. unfold configure, app_env, load_dotenv. cbn.
  rewrite (lookup_union_Some_l _ _ _ _ Hc), (lookup_union_Some_l _ _ _ _ Hk). cbn.
  by rewrite !bool_decide_eq_false_2.
Qed.

Lemma load_secrets_then_configure_witness :
  configure (app_env (sample_process (Some sample_secrets))) = Ok ().
Proof.
  apply (load_secrets_then_configure (sample_process (Some sample_secrets)) sample_secrets
           "secret-key" "secret-project" "secret.json"); (reflexivity || discriminate).
Defined.

(** * The page *)

Example page_ex1 :
  trade_time (604 * minute + 17 * 1000000000 + 5) = "10:04:17" ∧
  trade_time (-1) = "23:59:59" ∧
  lower ("[BULLish] " +:+ String (ascii_of_nat 192) "B")
    = "[bullish] " +:+ String (ascii_of_nat 224) "b" ∧
  contains "[bullish]" "so [bullish]!" = true ∧ contains "[bullish]" "[bull]ish" = false.
Proof. repeat split; vm_compute; reflexivity. Qed.

Lemma NoDup_unique (l : list string) : NoDup (unique l).
Proof.
  induction l as [|x l IH]; cbn [unique]; constructor.
  - rewrite list_elem_of_filter. tauto.
  - by apply NoDup_filter.
Qed.

Lemma length_unique (l : list string) : (length (unique l) ≤ length l)%nat.
Proof.
  induction l as [|x l IH]; cbn [unique length]; [done|].
  pose proof (length_filter (λ y, y ≠ x) (unique l)). lia.
Qed.

Lemma length_unique_mono (l1 l2 : list string) :
  (∀ x, x ∈ l1 → x ∈ l2) → (length (unique l1) ≤ length (unique l2))%nat.
Proof.
  intros Hsub. apply submseteq_length, NoDup_submseteq; [apply NoDup_unique|].
  intros x. rewrite !elem_of_unique. apply Hsub.
Qed.

Lemma returned_length (w : World) (out : list Annotated) :
  returned (get_crypto_data w) = Ok out → (length out ≤ 20)%nat.
Proof.
  intros Hout.
  destruct (get_crypto_data_cases w) as [[e He] | [He | (rows & df & _ & _ & _ & _ & He)]];
    rewrite He in Hout; cbn in Hout.
  - discriminate Hout.
  - injection Hout as <-. simpl. lia.
  - injection Hout as <-. rewrite length_annotated, length_display_set. lia.
Qed.

(** X21: the three metrics of the page are consistent on every frame:
    no more bots than wallets, no more wallets than transactions; and on
    a frame that [get_crypto_data] returned, no more than 20
    transactions. *)
Theorem page_metrics (df : list Annotated) :
  (active_bots df ≤ active_wallets df)%nat ∧
  (active_wallets df ≤ tx_count df)%nat ∧
  ∀ w, returned (get_crypto_data w) = Ok df → (tx_count df ≤ 20)%nat.
Proof.
  unfold active_bots, active_wallets, tx_count, nunique. split; [|split].
  - apply length_unique_mono. intros x (a & -> & Ha)%list_elem_of_fmap.
    apply list_elem_of_filter in Ha as [_ Ha].
    by apply (list_elem_of_fmap_2 (λ a : Annotated, sender a)).
  - etrans; [apply length_unique|]. by rewrite length_fmap.
  - intros w. apply returned_length.
Qed.

(** X22: the page shows the sole warning that no swap data was found
    exactly when the run reached the query and the query raised or gave
    no row: a failed query is shown as an absence of data, not as an
    error. *)
Theorem app_warning (w : World) :
  app w = [st_warning "no significant uniswap v3 swap data found in the last 24 hours."] ↔
    startup w = Ok () ∧ (query w = None ∨ query w = Some []).
Proof.
  rewrite <- returned_empty. unfold app, page.
  destruct (returned (get_crypto_data w)) as [[|a out]|e]; split; done.
Qed.




Lemma map_string_app (f : ascii → ascii) (s t : string) :
  map_string f (s +:+ t) = map_string f s +:+ map_string f t.
Proof.
  apply string_of_list_eq.
  by rewrite list_ascii_app, !list_ascii_map_string, list_ascii_app, fmap_app.
Qed.

Lemma prefix_app (needle rest : string) : String.prefix needle (needle +:+ rest) = true.
Proof.
  induction needle as [|c needle IH].
  - by destruct rest.
  - change (String c needle +:+ rest) with (String c (needle +:+ rest)).
    cbn [String.prefix]. by destruct (ascii_dec c c).
Qed.

Lemma contains_app (needle pre post : string) :
  contains needle (pre +:+ needle +:+ post) = true.
Proof.
  induction pre as [|c pre IH].
  - change ("" +:+ needle +:+ post) with (needle +:+ post).
    destruct (needle +:+ post) eqn:Heq; cbn [contains]; rewrite <- Heq, prefix_app; done.
  - change (String c pre +:+ needle +:+ post) with (String c (pre +:+ needle +:+ post)).
    cbn [contains]. rewrite IH. apply orb_true_r.
Qed.

(** X24: a narrative that carries the bullish tag, in any mix of upper
    and lower case and wherever it stands, is shown with [st.success],
    also when it carries the bearish tag as well; one that carries the
    bearish tag is never shown with [st.info]. *)
Theorem narrative_box_tags (pre tag post : string) :
  (lower tag = "[bullish]" →
     narrative_box (pre +:+ tag +:+ post) = st_success (pre +:+ tag +:+ post)) ∧
  (lower tag = "[bearish]" →
     narrative_box (pre +:+ tag +:+ post) = st_error (pre +:+ tag +:+ post) ∨
     narrative_box (pre +:+ tag +:+ post) = st_success (pre +:+ tag +:+ post)).
Proof.
  unfold narrative_box, lower. rewrite !map_string_app. split; intros ->.
  - by rewrite contains_app.
  - rewrite (contains_app "[bearish]").
    destruct (contains "[bullish]" _); [by right|by left].
Qed.

Lemma narrative_box_tags_witness :
  narrative_box ("a steady buy. " +:+ "[Bullish]" +:+ "")
    = st_success ("a steady buy. " +:+ "[Bullish]" +:+ "") ∧
  (narrative_box ("[bullish] or " +:+ "[BEARISH]" +:+ "?")
     = st_error ("[bullish] or " +:+ "[BEARISH]" +:+ "?") ∨
   narrative_box ("[bullish] or " +:+ "[BEARISH]" +:+ "?")
     = st_success ("[bullish] or " +:+ "[BEARISH]" +:+ "?")).
Proof.
  split.
  - apply (narrative_box_tags "a steady buy. " "[Bullish]" ""). reflexivity.
  - apply (narrative_box_tags "[bullish] or " "[BEARISH]" "?"). reflexivity.
Defined.

Lemma trade_time_day (t k : Z) : trade_time (t + k * day) = trade_time t.
Proof.
  unfold trade_time, day, minute.
  replace (t + k * (24 * 60 * (60 * 1000000000))) with (t + (k * 86400) * 1000000000) by lia.
  rewrite Z.div_add by lia. set (s := t / 1000000000).
  replace (s + k * 86400) with (s + (k * 24) * 3600) at 1 by lia.
  rewrite Z.div_add by lia. rewrite Z.mod_add by lia.
  replace (s + k * 86400) with (s + (k * 1440) * 60) by lia.
  rewrite Z.div_add by lia. rewrite (Z.mod_add s) by lia.
  replace (s / 60 + k * 1440) with (s / 60 + (k * 24) * 60) by lia.
  by rewrite Z.mod_add by lia.
Qed.

(** X25: the header of a trade shows the time of day and no date: two
    trades of one wallet with one flag, a whole number of days apart,
    have the same header. *)
Theorem header_time_of_day (a b : Annotated) (k : Z) :
  sender a = sender b → is_bot a = is_bot b →
  block_timestamp b = block_timestamp a + k * day →
  header a = header b.
Proof.
  intros Hs Hb Ht. unfold header, badge. by rewrite Hs, Hb, Ht, trade_time_day.
Qed.

Lemma header_time_of_day_witness :
  header {| event := {| swap := sample_swap "0xA" (604 * minute);
                        time_diff := None; is_bot := false |};
            AI_Narrative := skipped |}
  = header {| event := {| swap := sample_swap "0xA" (604 * minute + 2 * day);
                          time_diff := Some (2 * day); is_bot := false |};
              AI_Narrative := unavailable |}.
Proof. apply (header_time_of_day _ _ 2); reflexivity. Defined.
